(** * StudyPath AI (take1.py): a shallow embedding and its properties

    The program is a Streamlit page that asks a hosted model for a
    study plan, attaches a video to every topic, stores the plan in a
    MongoDB collection and tracks per-topic progress.

    The embedding has four layers:
    - the Python values the program manipulates (untyped: the plan is
      whatever [eval] makes of the model's text);
    - the MongoDB collection behind [MongoDBClient];
    - the three helpers [generate_study_plan], [find_youtube_video],
      [MongoDBClient] and the parts of [main] that create a plan and
      compute the progress figure, written over a state-and-exception
      monad whose state holds the collection and the history of
      external calls;
    - the external services (hosted model, [eval], video search,
      clock, identifier generator, driver failures), which are fields
      of an environment record: every theorem holds for every
      environment. *)

From Stdlib Require Import List String Ascii ZArith NArith QArith Lia Bool DecimalString.
Import ListNotations.

Set Implicit Arguments.
Set Warnings "-register-all".

Open Scope Z_scope.
Open Scope list_scope.

(* ================================================================== *)
(** * Python values *)
(* ================================================================== *)

(** Strings are sequences of code points below 256, one [ascii] each.
    Numbers are Python ints (no floats). *)

Record datetime := mk_datetime {
  dt_year : N; dt_month : N; dt_day : N;
  dt_hour : N; dt_minute : N; dt_second : N; dt_microsecond : N
}.

(** The hashable values: what can be a dict key. *)
Inductive atom :=
| ANone
| ABool (b : bool)
| AInt (z : Z)
| AStr (s : string)
| AObjectId (hex : string)      (* bson.ObjectId, by its 24 hex digits *)
| ADatetime (d : datetime).

(** Dicts keep insertion order, as Python's do. *)
Inductive value :=
| VAtom (a : atom)
| VList (items : list value)
| VDict (entries : list (atom * value)).

Definition dict := list (atom * value).

Abbreviation VNone := (VAtom ANone).
Abbreviation VStr s := (VAtom (AStr s)).
Abbreviation VInt z := (VAtom (AInt z)).
Abbreviation VBool b := (VAtom (ABool b)).

(** Exceptions, all of them instances of [Exception]. The message
    texts of the interpreter are not modelled; [KeyError] carries its
    key, an exception raised by an external service its class and
    text. *)
Inductive exn :=
| KeyError (key : value)
| IndexError
| TypeError
| AttributeError
| NameError (name : string)
| SyntaxError
| InvalidDocument
| OverflowError
| DuplicateKeyError
| WriteError
| External (cls msg : string).

Inductive result (A : Type) :=
| Return (a : A)
| Raise (e : exn).
Arguments Return {A} a.
Arguments Raise {A} e.

Definition result_bind {A B} (r : result A) (k : A -> result B) : result B :=
  match r with
  | Return a => k a
  | Raise e => Raise e
  end.

Declare Scope result_scope.
Delimit Scope result_scope with result.
Notation "x <- r ;; k" := (result_bind r (fun x => k))
  (at level 100, r at next level, right associativity) : result_scope.

(** ** Keys *)

Definition Z_of_bool (b : bool) : Z := if b then 1 else 0.

Definition datetime_eqb (d e : datetime) : bool :=
  (dt_year d =? dt_year e)%N && (dt_month d =? dt_month e)%N &&
  (dt_day d =? dt_day e)%N && (dt_hour d =? dt_hour e)%N &&
  (dt_minute d =? dt_minute e)%N && (dt_second d =? dt_second e)%N &&
  (dt_microsecond d =? dt_microsecond e)%N.

(** [==] on hashable values: [True == 1] and [False == 0]. *)
Definition key_eqb (a b : atom) : bool :=
  match a, b with
  | ANone, ANone => true
  | ABool x, ABool y => Bool.eqb x y
  | ABool x, AInt z => Z_of_bool x =? z
  | AInt z, ABool x => z =? Z_of_bool x
  | AInt x, AInt y => x =? y
  | AStr s, AStr t => String.eqb s t
  | AObjectId s, AObjectId t => String.eqb s t
  | ADatetime d, ADatetime e => datetime_eqb d e
  | _, _ => false
  end.

Fixpoint dict_get (k : atom) (d : dict) : option value :=
  match d with
  | [] => None
  | (k', v) :: rest => if key_eqb k k' then Some v else dict_get k rest
  end.

(** [d[k] = v]: an existing key keeps its place (and its key object),
    a new one goes last. *)
Fixpoint dict_set (k : atom) (v : value) (d : dict) : dict :=
  match d with
  | [] => [(k, v)]
  | (k', v') :: rest =>
      if key_eqb k k' then (k', v) :: rest else (k', v') :: dict_set k v rest
  end.

(** [{**d, k1: v1, ...}]: a copy of [d] with the listed items set in turn. *)
Definition dict_update (d : dict) (items : dict) : dict :=
  fold_left (fun acc kv => dict_set (fst kv) (snd kv) acc) items d.

(** ** Subscription, iteration, length, truth *)

Definition chars (s : string) : list value :=
  map (fun c => VStr (String c EmptyString)) (list_ascii_of_string s).

(** An index is an int; [bool] is a subclass of int. *)
Definition as_index (key : value) : option Z :=
  match key with
  | VAtom (AInt z) => Some z
  | VAtom (ABool b) => Some (Z_of_bool b)
  | _ => None
  end.

(** Negative indices count from the end. *)
Definition index_of (len : nat) (i : Z) : option nat :=
  let j := if i <? 0 then i + Z.of_nat len else i in
  if (0 <=? j) && (j <? Z.of_nat len) then Some (Z.to_nat j) else None.

Definition seq_getitem (l : list value) (key : value) : result value :=
  match as_index key with
  | None => Raise TypeError
  | Some i =>
      match index_of (List.length l) i with
      | None => Raise IndexError
      | Some n =>
          match nth_error l n with
          | Some v => Return v
          | None => Raise IndexError
          end
      end
  end.

(** [obj[key]] *)
Definition py_getitem (obj key : value) : result value :=
  match obj with
  | VDict d =>
      match key with
      | VAtom k =>
          match dict_get k d with
          | Some v => Return v
          | None => Raise (KeyError key)
          end
      | _ => Raise TypeError                       (* unhashable key *)
      end
  | VList l => seq_getitem l key
  | VAtom (AStr s) => seq_getitem (chars s) key
  | VAtom _ => Raise TypeError                     (* not subscriptable *)
  end.

Fixpoint list_set (l : list value) (n : nat) (v : value) : list value :=
  match l, n with
  | [], _ => []
  | _ :: rest, O => v :: rest
  | x :: rest, S n' => x :: list_set rest n' v
  end.

(** [obj[key] = v], as the object it leaves behind. *)
Definition py_setitem (obj key v : value) : result value :=
  match obj with
  | VDict d =>
      match key with
      | VAtom k => Return (VDict (dict_set k v d))
      | _ => Raise TypeError
      end
  | VList l =>
      match as_index key with
      | None => Raise TypeError
      | Some i =>
          match index_of (List.length l) i with
          | None => Raise IndexError
          | Some n => Return (VList (list_set l n v))
          end
      end
  | VAtom _ => Raise TypeError                     (* no item assignment *)
  end.

(** [obj.get(key)], a method of dicts only. *)
Definition py_get (obj : value) (key : atom) : result value :=
  match obj with
  | VDict d =>
      match dict_get key d with
      | Some v => Return v
      | None => Return VNone
      end
  | _ => Raise AttributeError
  end.

(** What [for x in obj] visits. *)
Definition py_iter (obj : value) : result (list value) :=
  match obj with
  | VList l => Return l
  | VDict d => Return (map (fun kv => VAtom (fst kv)) d)
  | VAtom (AStr s) => Return (chars s)
  | VAtom _ => Raise TypeError
  end.

Definition py_len (obj : value) : result Z :=
  match obj with
  | VList l => Return (Z.of_nat (List.length l))
  | VDict d => Return (Z.of_nat (List.length d))
  | VAtom (AStr s) => Return (Z.of_nat (String.length s))
  | VAtom _ => Raise TypeError
  end.

Definition py_truthy (obj : value) : bool :=
  match obj with
  | VAtom ANone => false
  | VAtom (ABool b) => b
  | VAtom (AInt z) => negb (z =? 0)
  | VAtom (AStr s) => negb (String.eqb s EmptyString)
  | VAtom (AObjectId _) => true
  | VAtom (ADatetime _) => true
  | VList l => match l with [] => false | _ => true end
  | VDict d => match d with [] => false | _ => true end
  end.

(** [{**obj}] needs a mapping. *)
Definition py_mapping (obj : value) : result dict :=
  match obj with
  | VDict d => Return d
  | _ => Raise TypeError
  end.

(** ** [str] and [repr] *)

Definition dquote : ascii := ascii_of_nat 34.
Definition squote : ascii := ascii_of_nat 39.
Definition backslash : ascii := ascii_of_nat 92.
Definition newline : ascii := ascii_of_nat 10.
Definition tab : ascii := ascii_of_nat 9.
Definition carriage_return : ascii := ascii_of_nat 13.

Definition char_string (c : ascii) : string := String c EmptyString.

Definition decimal (z : Z) : string := NilZero.string_of_int (Z.to_int z).

Definition zero_pad (width : nat) (s : string) : string :=
  (string_of_list_ascii (repeat "0"%char (width - String.length s)) ++ s)%string.

Definition decimal_pad (width : nat) (n : N) : string :=
  zero_pad width (decimal (Z.of_N n)).

Definition hex_digit (n : nat) : ascii :=
  nth n (list_ascii_of_string "0123456789abcdef") "0"%char.

Definition hex2 (n : nat) : string :=
  String (hex_digit (n / 16)) (String (hex_digit (n mod 16)) EmptyString).

Definition string_mem (c : ascii) (s : string) : bool :=
  existsb (Ascii.eqb c) (list_ascii_of_string s).

(** The printable code points below 256. *)
Definition printable (c : ascii) : bool :=
  let n := nat_of_ascii c in
  ((32 <=? n) && (n <=? 126) || (161 <=? n) && negb (n =? 173))%nat.

Definition repr_char (quote c : ascii) : string :=
  if Ascii.eqb c backslash then String backslash (String backslash EmptyString)
  else if Ascii.eqb c quote then String backslash (char_string quote)
  else if Ascii.eqb c newline then String backslash "n"
  else if Ascii.eqb c carriage_return then String backslash "r"
  else if Ascii.eqb c tab then String backslash "t"
  else if printable c then char_string c
  else String backslash (String "x" (hex2 (nat_of_ascii c))).

(** [repr] of a str: single quotes unless the text has a single quote
    and no double quote. *)
Definition repr_str (s : string) : string :=
  let quote := if string_mem squote s && negb (string_mem dquote s)
               then dquote else squote in
  String quote
    (String.concat EmptyString (map (repr_char quote) (list_ascii_of_string s))
     ++ char_string quote).

Definition str_datetime (d : datetime) : string :=
  (decimal_pad 4 (dt_year d) ++ "-" ++ decimal_pad 2 (dt_month d) ++ "-" ++
   decimal_pad 2 (dt_day d) ++ " " ++ decimal_pad 2 (dt_hour d) ++ ":" ++
   decimal_pad 2 (dt_minute d) ++ ":" ++ decimal_pad 2 (dt_second d) ++
   (if (dt_microsecond d =? 0)%N then EmptyString
    else "." ++ decimal_pad 6 (dt_microsecond d)))%string.

Definition repr_datetime (d : datetime) : string :=
  let n x := decimal (Z.of_N x) in
  ("datetime.datetime(" ++ n (dt_year d) ++ ", " ++ n (dt_month d) ++ ", " ++
   n (dt_day d) ++ ", " ++ n (dt_hour d) ++ ", " ++ n (dt_minute d) ++
   (if (dt_microsecond d =? 0)%N
    then (if (dt_second d =? 0)%N then EmptyString else ", " ++ n (dt_second d))
    else ", " ++ n (dt_second d) ++ ", " ++ n (dt_microsecond d)) ++ ")")%string.

Definition repr_atom (a : atom) : string :=
  match a with
  | ANone => "None"
  | ABool true => "True"
  | ABool false => "False"
  | AInt z => decimal z
  | AStr s => repr_str s
  | AObjectId h => ("ObjectId('" ++ h ++ "')")%string
  | ADatetime d => repr_datetime d
  end.

Fixpoint py_repr (v : value) : string :=
  match v with
  | VAtom a => repr_atom a
  | VList l => ("[" ++ String.concat ", " (map py_repr l) ++ "]")%string
  | VDict d =>
      ("{" ++ String.concat ", "
                (map (fun kv => repr_atom (fst kv) ++ ": " ++ py_repr (snd kv)) d)
           ++ "}")%string
  end.

(** [str(v)], which is what an f-string field without a format
    specification inserts. *)
Definition py_str (v : value) : string :=
  match v with
  | VAtom (AStr s) => s
  | VAtom (AObjectId h) => h
  | VAtom (ADatetime d) => str_datetime d
  | _ => py_repr v
  end.

(** ** [str.replace] *)

(** [s.replace(old, new)] for a non-empty [old]: the occurrences are
    found left to right and do not overlap. [skip] counts the
    characters of an occurrence still to be dropped. *)
Fixpoint replace_from (old new : string) (skip : nat) (s : string) : string :=
  match s with
  | EmptyString => EmptyString
  | String c rest =>
      match skip with
      | S k => replace_from old new k rest
      | O =>
          if String.prefix old s
          then (new ++ replace_from old new (String.length old - 1) rest)%string
          else String c (replace_from old new 0 rest)
      end
  end.

Definition str_replace (s old new : string) : string :=
  replace_from old new 0 s.

(* ================================================================== *)
(** * Display literals: an evaluator for the model's text *)
(* ================================================================== *)

(** [generate_study_plan] hands the model's text to [eval]. On a text
    that is a display literal ([{...}], [[...]], quoted strings without
    escapes, ints, [True], [False], [None]) [eval] builds the value the
    literal denotes, and on the JSON words [true], [false], [null] it
    raises [NameError]. [literal_eval] implements that much; a text
    outside this grammar is reported as [SyntaxError], so the function
    stands for [eval] only on texts inside it. The theorems do not
    depend on it: they quantify over the evaluator. It serves to run
    the program on concrete responses. *)

Inductive expr :=
| ENone
| EBool (b : bool)
| EInt (z : Z)
| EStr (s : string)
| EName (name : string)
| EList (items : list expr)
| EDict (entries : list (expr * expr)).

Definition is_space (c : ascii) : bool :=
  Ascii.eqb c " " || Ascii.eqb c tab || Ascii.eqb c newline
  || Ascii.eqb c carriage_return.

Definition is_digit (c : ascii) : bool :=
  let n := nat_of_ascii c in ((48 <=? n) && (n <=? 57))%nat.

Definition is_letter (c : ascii) : bool :=
  let n := nat_of_ascii c in
  ((65 <=? n) && (n <=? 90) || (97 <=? n) && (n <=? 122) || (n =? 95))%nat.

Fixpoint skip_ws (s : list ascii) : list ascii :=
  match s with
  | c :: rest => if is_space c then skip_ws rest else s
  | [] => []
  end.

Fixpoint span (p : ascii -> bool) (s : list ascii) : list ascii * list ascii :=
  match s with
  | c :: rest =>
      if p c then let (a, b) := span p rest in (c :: a, b) else ([], s)
  | [] => ([], [])
  end.

Definition digits_value (ds : list ascii) : Z :=
  fold_left (fun acc c => 10 * acc + (Z.of_nat (nat_of_ascii c) - 48)) ds 0.

(** The text of a string literal up to the closing [quote]. *)
Fixpoint lex_string (quote : ascii) (s : list ascii) : option (string * list ascii) :=
  match s with
  | [] => None
  | c :: rest =>
      if Ascii.eqb c quote then Some (EmptyString, rest)
      else if Ascii.eqb c backslash || Ascii.eqb c newline
              || Ascii.eqb c carriage_return then None
      else match lex_string quote rest with
           | Some (t, rest') => Some (String c t, rest')
           | None => None
           end
  end.

Definition lex_number (s : list ascii) : option (Z * list ascii) :=
  let (ds, rest) := span is_digit s in
  let follows_ok :=
    match rest with
    | c :: _ => negb (is_letter c || Ascii.eqb c ".")
    | [] => true
    end in
  let zeros_ok :=
    match ds with
    | [] => false
    | [_] => true
    | c :: _ => negb (Ascii.eqb c "0") || forallb (Ascii.eqb "0"%char) ds
    end in
  if follows_ok && zeros_ok then Some (digits_value ds, rest) else None.

Definition lex_word (s : list ascii) : option (expr * list ascii) :=
  let (w, rest) := span (fun c => is_letter c || is_digit c) s in
  let name := string_of_list_ascii w in
  if String.eqb name "True" then Some (EBool true, rest)
  else if String.eqb name "False" then Some (EBool false, rest)
  else if String.eqb name "None" then Some (ENone, rest)
  else if String.eqb name "true" || String.eqb name "false"
          || String.eqb name "null" then Some (EName name, rest)
  else None.

Fixpoint parse_value (fuel : nat) (s : list ascii) : option (expr * list ascii) :=
  match fuel with
  | O => None
  | S f =>
      match skip_ws s with
      | [] => None
      | c :: rest =>
          if Ascii.eqb c "[" then parse_list f rest []
          else if Ascii.eqb c "{" then parse_dict f rest []
          else if Ascii.eqb c squote || Ascii.eqb c dquote then
            match lex_string c rest with
            | Some (EmptyString, c' :: _ as rest') =>
                (* three quotes in a row open a triple-quoted string *)
                if Ascii.eqb c' c then None else Some (EStr EmptyString, rest')
            | Some (t, rest') => Some (EStr t, rest')
            | None => None
            end
          else if Ascii.eqb c "-" then
            match lex_number (skip_ws rest) with
            | Some (z, rest') => Some (EInt (- z), rest')
            | None => None
            end
          else if is_digit c then
            match lex_number (c :: rest) with
            | Some (z, rest') => Some (EInt z, rest')
            | None => None
            end
          else lex_word (c :: rest)
      end
  end
with parse_list (fuel : nat) (s : list ascii) (acc : list expr)
  : option (expr * list ascii) :=
  match fuel with
  | O => None
  | S f =>
      match skip_ws s with
      | [] => None
      | c :: rest =>
          if Ascii.eqb c "]" then Some (EList (rev acc), rest)
          else
            match parse_value f (c :: rest) with
            | None => None
            | Some (e, s1) =>
                match skip_ws s1 with
                | c1 :: s2 =>
                    if Ascii.eqb c1 "," then parse_list f s2 (e :: acc)
                    else if Ascii.eqb c1 "]" then Some (EList (rev (e :: acc)), s2)
                    else None
                | [] => None
                end
            end
      end
  end
with parse_dict (fuel : nat) (s : list ascii) (acc : list (expr * expr))
  : option (expr * list ascii) :=
  match fuel with
  | O => None
  | S f =>
      match skip_ws s with
      | [] => None
      | c :: rest =>
          if Ascii.eqb c "}" then Some (EDict (rev acc), rest)
          else
            match parse_value f (c :: rest) with
            | None => None
            | Some (k, s1) =>
                match skip_ws s1 with
                | c1 :: s2 =>
                    if Ascii.eqb c1 ":" then
                      match parse_value f s2 with
                      | None => None
                      | Some (v, s3) =>
                          match skip_ws s3 with
                          | c3 :: s4 =>
                              if Ascii.eqb c3 "," then parse_dict f s4 ((k, v) :: acc)
                              else if Ascii.eqb c3 "}"
                                   then Some (EDict (rev ((k, v) :: acc)), s4)
                              else None
                          | [] => None
                          end
                      end
                    else None
                | [] => None
                end
            end
      end
  end.

(** The whole text is one expression: [eval] drops leading blanks,
    blank lines may precede the expression, and only white space may
    follow it. *)
Definition parse (text : string) : option expr :=
  let s := list_ascii_of_string text in
  let s1 := snd (span (fun c => Ascii.eqb c " " || Ascii.eqb c tab) s) in
  let s2 := snd (span (fun c => Ascii.eqb c newline || Ascii.eqb c carriage_return) s1) in
  match s2 with
  | [] => None
  | c :: _ =>
      if is_space c then None
      else
        match parse_value (2 * List.length s2 + 2) s2 with
        | Some (e, rest) =>
            match skip_ws rest with
            | [] => Some e
            | _ :: _ => None
            end
        | None => None
        end
  end.

(** Evaluation goes left to right; a dict display evaluates each key,
    then its value, then stores the item. *)
Fixpoint eval_expr (e : expr) : result value :=
  match e with
  | ENone => Return VNone
  | EBool b => Return (VBool b)
  | EInt z => Return (VInt z)
  | EStr s => Return (VStr s)
  | EName name => Raise (NameError name)
  | EList items =>
      (vs <- (fix eval_items (l : list expr) : result (list value) :=
                match l with
                | [] => Return []
                | x :: rest =>
                    (v <- eval_expr x ;;
                     vs <- eval_items rest ;;
                     Return (v :: vs))
                end) items ;;
       Return (VList vs))%result
  | EDict entries =>
      (d <- (fix eval_entries (l : list (expr * expr)) (acc : dict) : result dict :=
               match l with
               | [] => Return acc
               | (k, v) :: rest =>
                   (kv <- eval_expr k ;;
                    vv <- eval_expr v ;;
                    match kv with
                    | VAtom a => eval_entries rest (dict_set a vv acc)
                    | _ => Raise TypeError
                    end)
               end) entries [] ;;
       Return (VDict d))%result
  end.

Definition literal_eval (text : string) : result value :=
  match parse text with
  | Some e => eval_expr e
  | None => Raise SyntaxError
  end.


(* ================================================================== *)
(** * The document store *)
(* ================================================================== *)

(** A collection is the list of its documents in natural order; a
    document is a dict whose keys are strings. What follows is the
    behaviour of [insert_one], [update_one] with a single [$set], and
    [find_one] on an [_id] filter, as the server and the driver
    define it. *)

Definition document := dict.
Definition collection := list document.

Definition atom_eqb (a b : atom) : bool :=
  match a, b with
  | ANone, ANone => true
  | ABool x, ABool y => Bool.eqb x y
  | AInt x, AInt y => x =? y
  | AStr s, AStr t => String.eqb s t
  | AObjectId s, AObjectId t => String.eqb s t
  | ADatetime d, ADatetime e => datetime_eqb d e
  | _, _ => false
  end.

(** Equality of stored values: same type, same content, same order. *)
Fixpoint value_eqb (a b : value) : bool :=
  match a, b with
  | VAtom x, VAtom y => atom_eqb x y
  | VList l, VList m =>
      (fix all2 (l : list value) (m : list value) : bool :=
         match l, m with
         | [], [] => true
         | x :: l', y :: m' => value_eqb x y && all2 l' m'
         | _, _ => false
         end) l m
  | VDict d, VDict e =>
      (fix all2 (d : dict) (e : dict) : bool :=
         match d, e with
         | [], [] => true
         | (k, x) :: d', (k', y) :: e' =>
             atom_eqb k k' && value_eqb x y && all2 d' e'
         | _, _ => false
         end) d e
  | _, _ => false
  end.

(** The value of [_id]; a filter on null also matches its absence. *)
Definition doc_id (d : document) : value :=
  match dict_get (AStr "_id") d with
  | Some v => v
  | None => VNone
  end.

(** The filter [{"_id": plan_id}]. *)
Definition matches_id (plan_id : atom) (d : document) : bool :=
  value_eqb (doc_id d) (VAtom plan_id).

Definition find_one (c : collection) (plan_id : atom) : option document :=
  find (matches_id plan_id) c.

(** ** Encoding *)

Definition has_nul (s : string) : bool := string_mem zero s.

Definition int64_ok (z : Z) : bool := (- 2 ^ 63 <=? z) && (z <? 2 ^ 63).

(** The first reason the driver cannot encode a value, if any: a key
    that is not a string or holds a NUL, an int beyond eight bytes. *)
Fixpoint encode_error (v : value) : option exn :=
  match v with
  | VAtom (AInt z) => if int64_ok z then None else Some OverflowError
  | VAtom _ => None
  | VList l =>
      (fix first (l : list value) : option exn :=
         match l with
         | [] => None
         | x :: rest =>
             match encode_error x with
             | Some e => Some e
             | None => first rest
             end
         end) l
  | VDict d =>
      (fix first (d : dict) : option exn :=
         match d with
         | [] => None
         | (AStr k, x) :: rest =>
             if has_nul k then Some InvalidDocument
             else match encode_error x with
                  | Some e => Some e
                  | None => first rest
                  end
         | _ :: _ => Some InvalidDocument
         end) d
  end.

(** ** [insert_one] *)

Definition dict_remove (k : atom) (d : dict) : dict :=
  filter (fun kv => negb (key_eqb k (fst kv))) d.

(** [insert_one(doc)] with [fresh] the ObjectId the driver would
    generate: the outcome ([inserted_id] or the exception) and the
    collection afterwards. A document without [_id] receives [fresh];
    the server keeps [_id] first, refuses an array as [_id] and a
    second document with the same [_id].
    A value is kept here as it was handed over; the server keeps a
    datetime to the millisecond (see [bson_round]). *)
Definition insert_one (c : collection) (doc : value) (fresh : string)
  : result value * collection :=
  match doc with
  | VDict d =>
      let id := match dict_get (AStr "_id") d with
                | Some v => v
                | None => VAtom (AObjectId fresh)
                end in
      let stored := (AStr "_id", id) :: dict_remove (AStr "_id") d in
      match encode_error (VDict stored) with
      | Some e => (Raise e, c)
      | None =>
          match id with
          | VList _ => (Raise WriteError, c)
          | _ =>
              if existsb (fun d' => value_eqb (doc_id d') id) c
              then (Raise DuplicateKeyError, c)
              else (Return id, c ++ [stored])
          end
      end
  | _ => (Raise TypeError, c)
  end.

(** ** [update_one] with [$set] on a dotted path *)

(** The components of a dotted path. *)
Fixpoint split_dots (s : string) : list string :=
  match s with
  | EmptyString => [EmptyString]
  | String c rest =>
      if Ascii.eqb c "." then EmptyString :: split_dots rest
      else match split_dots rest with
           | h :: t => String c h :: t
           | [] => [char_string c]
           end
  end.

Definition starts_with_dollar (s : string) : bool :=
  match s with
  | String c _ => Ascii.eqb c "$"
  | EmptyString => false
  end.

Definition ends_with (c : ascii) (s : string) : bool :=
  match rev (list_ascii_of_string s) with
  | x :: _ => Ascii.eqb x c
  | [] => false
  end.

(** [$[name]] with a name: a filtered positional operator. *)
Definition is_array_filter (s : string) : bool :=
  match s with
  | String a (String b rest) =>
      Ascii.eqb a "$" && Ascii.eqb b "[" && ends_with "]" rest
      && (1 <? String.length rest)%nat
  | _ => false
  end.

(** The checks made on the update document before any document is
    looked at. The driver refuses a key with a NUL. The server refuses
    a path with an empty component ("The update path ... contains an
    empty field name, which is not allowed"), with more than one
    positional [$], or with a [$[name]] for which the request has no
    array filter (this request has none). *)
Definition check_update_path (path : string) : result (list string) :=
  if has_nul path then Raise InvalidDocument
  else
    let comps := split_dots path in
    if existsb (fun c => String.eqb c EmptyString) comps then Raise WriteError
    else if (1 <? List.length (filter (String.eqb "$") comps))%nat
    then Raise WriteError
    else if existsb is_array_filter comps then Raise WriteError
    else Return comps.

(** The embedded documents created for the missing tail of a path. *)
Fixpoint nest (comps : list string) (v : value) : value :=
  match comps with
  | [] => v
  | c :: rest => VDict [(AStr c, nest rest v)]
  end.

(** A component is an array index when it is a decimal number without
    leading zeros. *)
Definition parse_index (c : string) : option N :=
  let ds := list_ascii_of_string c in
  match ds with
  | [] => None
  | d :: rest =>
      if forallb is_digit ds
         && (negb (Ascii.eqb d "0") || match rest with [] => true | _ => false end)
      then Some (Z.to_N (digits_value ds))
      else None
  end.

(** An array grows by at most this many null elements. *)
Definition max_padding : N := 1500000.

(** [$set] of [v] at [comps] inside [target]. A missing field is
    created, with embedded documents for the rest of the path; an
    array is entered by index and padded with nulls up to a new
    index; any other value on the way makes the path not viable. *)
Fixpoint set_path (comps : list string) (v : value) (target : value)
  : result value :=
  match comps with
  | [] => Return v
  | c :: rest =>
      match target with
      | VDict d =>
          match dict_get (AStr c) d with
          | Some child =>
              (child' <- set_path rest v child ;;
               Return (VDict (dict_set (AStr c) child' d)))%result
          | None => Return (VDict (d ++ [(AStr c, nest rest v)]))
          end
      | VList l =>
          match parse_index c with
          | None => Raise WriteError
          | Some i =>
              if (i <? N.of_nat (List.length l))%N then
                match nth_error l (N.to_nat i) with
                | Some child =>
                    (child' <- set_path rest v child ;;
                     Return (VList (list_set l (N.to_nat i) child')))%result
                | None => Raise WriteError
                end
              else if (max_padding <? i - N.of_nat (List.length l))%N
              then Raise WriteError
              else Return (VList (l ++ repeat VNone (N.to_nat (i - N.of_nat (List.length l)))
                                    ++ [nest rest v]))
          end
      | VAtom _ => Raise WriteError
      end
  end.

(** The update of a matched document. A component that starts with
    [$] is a positional operator, which finds no array position in a
    filter on [_id], or a name the server does not store: the update
    is counted as refused. *)
Definition doc_set_path (comps : list string) (v : value) (d : document)
  : result document :=
  if existsb starts_with_dollar comps then Raise WriteError
  else
    match set_path comps v (VDict d) with
    | Return (VDict d') => Return d'
    | Return _ => Return d
    | Raise e => Raise e
    end.

(** The first document that matches is the one updated. *)
Fixpoint update_first (plan_id : atom) (f : document -> result document)
  (c : collection) : result collection :=
  match c with
  | [] => Return []
  | d :: rest =>
      if matches_id plan_id d
      then (d' <- f d ;; Return (d' :: rest))%result
      else (rest' <- update_first plan_id f rest ;; Return (d :: rest'))%result
  end.

(** [update_one({"_id": plan_id}, {"$set": {path: v}})]: a refused
    update leaves the collection as it was. *)
Definition update_one_set (c : collection) (plan_id : atom) (path : string)
  (v : value) : result unit * collection :=
  match check_update_path path with
  | Raise e => (Raise e, c)
  | Return comps =>
      match update_first plan_id (doc_set_path comps v) c with
      | Return c' => (Return tt, c')
      | Raise e => (Raise e, c)
      end
  end.

(** ** Reading a stored value *)

(** A field of a document or of an embedded document, by the names
    that lead to it. *)
Fixpoint get_field (names : list string) (v : value) : option value :=
  match names with
  | [] => Some v
  | c :: rest =>
      match v with
      | VDict d =>
          match dict_get (AStr c) d with
          | Some child => get_field rest child
          | None => None
          end
      | _ => None
      end
  end.

(** Dot notation: as [get_field], and an index enters an array. *)
Fixpoint get_path (comps : list string) (v : value) : option value :=
  match comps with
  | [] => Some v
  | c :: rest =>
      match v with
      | VDict d =>
          match dict_get (AStr c) d with
          | Some child => get_path rest child
          | None => None
          end
      | VList l =>
          match parse_index c with
          | Some i =>
              if (i <? N.of_nat (List.length l))%N then
                match nth_error l (N.to_nat i) with
                | Some child => get_path rest child
                | None => None
                end
              else None
          | None => None
          end
      | VAtom _ => None
      end
  end.

(* ================================================================== *)
(** * The program *)
(* ================================================================== *)

(** The mapping handed to the prompt-and-model chain. The prompt
    template is a constant of the chain. *)
Record chain_input := {
  ci_subject : string;
  ci_current_level : string;
  ci_target_level : string;
  ci_hours_per_week : Z;
  ci_weeks : Z
}.

(** What the program does to the outside, in order. *)
Inductive event :=
| EvInvoke (input : chain_input) (outcome : result string)
| EvSearch (query : string) (max_results : Z) (outcome : result (list value))
| EvInsertOne (doc : value) (outcome : result value)
| EvUpdateOne (plan_id : atom) (path : string) (v : value) (outcome : result unit)
| EvFindOne (plan_id : atom)
| EvError (e : exn)            (* st.error(f"Error generating plan: {str(e)}") *)
| EvSuccess.                   (* st.success(...) *)

(** The outside. Each service answers from the history so far, so its
    answers may change from call to call. [chain_invoke] builds the
    prompt-and-model chain and invokes it: the content of the response,
    or what either step raised. [py_eval] is [eval] in the scope of
    [generate_study_plan], on a text whose evaluation has no effect
    of its own. [youtube_search] is [YoutubeSearch(...).to_dict()].
    [driver_fault] is a failure of the driver before a request reaches
    the collection (server unreachable, time-out). *)
Record env := {
  chain_invoke : list event -> chain_input -> result string;
  py_eval : string -> result value;
  youtube_search : list event -> string -> Z -> result (list value);
  datetime_now : list event -> datetime;
  new_object_id : list event -> string;
  driver_fault : list event -> option exn
}.

Record world := {
  history : list event;
  plans : collection
}.

Definition log (ev : event) (w : world) : world :=
  {| history := history w ++ [ev]; plans := plans w |}.

(** Computations that read and change the world and may raise. *)
Definition M (A : Type) : Type := world -> result A * world.

Definition ret {A} (a : A) : M A := fun w => (Return a, w).

Definition bind {A B} (m : M A) (k : A -> M B) : M B :=
  fun w =>
    match m w with
    | (Return a, w') => k a w'
    | (Raise e, w') => (Raise e, w')
    end.

Definition lift {A} (r : result A) : M A := fun w => (r, w).

Declare Scope app_scope.
Delimit Scope app_scope with app.
Notation "x <- m ;; k" := (bind m (fun x => k))
  (at level 100, m at next level, right associativity) : app_scope.

(** The widgets of the input section. *)
Record inputs := {
  subject : string;
  current_level : string;
  target_level : string;
  hours_per_week : Z
}.

(** [st.session_state]: a key is absent until [main] first sets it. *)
Definition progress_map := list (atom * bool).

Record session_state := {
  ss_plan : option value;
  ss_progress : option progress_map
}.

Section Program.

Variable E : env.

(** ** class MongoDBClient *)

Definition driver_call {A} (op : list event -> collection -> result A * collection)
  (ev : result A -> event) : M A :=
  fun w =>
    match driver_fault E (history w) with
    | Some e => (Raise e, log (ev (Raise e)) w)
    | None =>
        let (r, c) := op (history w) (plans w) in
        (r, {| history := history w ++ [ev r]; plans := c |})
    end.

Definition save_plan (plan : value) : M value :=
  driver_call (fun h c => insert_one c plan (new_object_id E h))
              (EvInsertOne plan).

Definition progress_path (topic : value) : string :=
  ("progress." ++ py_str topic)%string.

Definition update_progress (plan_id : atom) (topic : value) (completed : bool)
  : M unit :=
  driver_call (fun _ c => update_one_set c plan_id (progress_path topic)
                                         (VBool completed))
              (EvUpdateOne plan_id (progress_path topic) (VBool completed)).

Definition get_plan (plan_id : atom) : M value :=
  fun w =>
    match driver_fault E (history w) with
    | Some e => (Raise e, log (EvFindOne plan_id) w)
    | None =>
        (Return match find_one (plans w) plan_id with
                | Some d => VDict d
                | None => VNone
                end,
         log (EvFindOne plan_id) w)
    end.

(** ** generate_study_plan *)

Definition invoke (input : chain_input) : M string :=
  fun w =>
    let r := chain_invoke E (history w) input in
    (r, log (EvInvoke input r) w).

Definition strip_fences (content : string) : string :=
  str_replace (str_replace content "```json" EmptyString) "```" EmptyString.

Definition generate_study_plan (subject current_level target_level : string)
  (hours_per_week : Z) : M value :=
  (content <- invoke {| ci_subject := subject;
                        ci_current_level := current_level;
                        ci_target_level := target_level;
                        ci_hours_per_week := hours_per_week;
                        ci_weeks := 4 |} ;;
   lift (py_eval E (strip_fences content)))%app.

(** ** find_youtube_video *)

Definition search (query : string) (max_results : Z) : M (list value) :=
  fun w =>
    let r := youtube_search E (history w) query max_results in
    (r, log (EvSearch query max_results r) w).

(** The body after the search call: what is returned for [results]. *)
Definition video_of_results (results : list value) : result value :=
  match results with
  | video :: _ =>
      (id <- py_getitem video (VStr "id") ;;
       title <- py_getitem video (VStr "title") ;;
       id' <- py_getitem video (VStr "id") ;;
       thumbnails <- py_getitem video (VStr "thumbnails") ;;
       thumbnail <- py_getitem thumbnails (VInt 0) ;;
       Return (VDict [(AStr "id", id);
                      (AStr "title", title);
                      (AStr "url", VStr ("https://youtube.com/watch?v=" ++ py_str id'));
                      (AStr "thumbnail", thumbnail)]))%result
  | [] => Return VNone
  end.

Definition find_youtube_video (query : string) : M value :=
  (results <- search query 1 ;;
   lift (video_of_results results))%app.

(** ** main: session state *)

Definition init_session (ss : session_state) : session_state :=
  {| ss_plan := match ss_plan ss with
                | None => Some VNone
                | Some p => Some p
                end;
     ss_progress := match ss_progress ss with
                    | None => Some []
                    | Some p => Some p
                    end |}.

(** ** main: the generate button *)

(** The loops assign into the topic dicts in place. Here a loop
    returns the objects it visited as it leaves them, and the
    container that holds them is rebuilt around them. Only a list
    holds objects that can be assigned into: iterating a dict visits
    its keys and iterating a str its characters. *)

Fixpoint enrich_topics (subject : string) (topics : list value) : M (list value) :=
  match topics with
  | [] => ret []
  | topic :: rest =>
      (name <- lift (py_getitem topic (VStr "name")) ;;
       video <- find_youtube_video (py_str name ++ " " ++ subject) ;;
       topic' <- lift (py_setitem topic (VStr "video") video) ;;
       rest' <- enrich_topics subject rest ;;
       ret (topic' :: rest'))%app
  end.

Definition rebuild (container : value) (items : list value) : value :=
  match container with
  | VList _ => VList items
  | _ => container
  end.

Definition put_back (obj : value) (key : string) (v : value) : value :=
  match obj with
  | VDict d => VDict (dict_set (AStr key) v d)
  | _ => obj
  end.

Definition enrich_week (subject : string) (week : value) : M value :=
  (topics <- lift (py_getitem week (VStr "topics")) ;;
   items <- lift (py_iter topics) ;;
   items' <- enrich_topics subject items ;;
   ret (put_back week "topics" (rebuild topics items')))%app.

Fixpoint enrich_weeks (subject : string) (weeks : list value) : M (list value) :=
  match weeks with
  | [] => ret []
  | week :: rest =>
      (week' <- enrich_week subject week ;;
       rest' <- enrich_weeks subject rest ;;
       ret (week' :: rest'))%app
  end.

(** [for week in plan['weeks']: for topic in week['topics']: ...] *)
Definition add_videos (subject : string) (plan : value) : M value :=
  (weeks <- lift (py_getitem plan (VStr "weeks")) ;;
   items <- lift (py_iter weeks) ;;
   items' <- enrich_weeks subject items ;;
   ret (put_back plan "weeks" (rebuild weeks items')))%app.

Definition now : M value :=
  fun w => (Return (VAtom (ADatetime (datetime_now E (history w)))), w).

(** The body of the [try]: the new value of [st.session_state.plan]. *)
Definition create_plan (i : inputs) : M value :=
  (plan <- generate_study_plan (subject i) (current_level i) (target_level i)
                               (hours_per_week i) ;;
   plan <- add_videos (subject i) plan ;;
   fields <- lift (py_mapping plan) ;;
   created_at <- now ;;
   plan_id <- save_plan (VDict (dict_update fields
                                  [(AStr "subject", VStr (subject i));
                                   (AStr "created_at", created_at);
                                   (AStr "progress", VDict [])])) ;;
   fields <- lift (py_mapping plan) ;;
   ret (VDict (dict_update fields [(AStr "_id", plan_id)])))%app.

(** [if st.button(...): try: ... except Exception as e: st.error(...)] *)
Definition on_generate (i : inputs) (ss : session_state) (w : world)
  : session_state * world :=
  match create_plan i w with
  | (Return plan, w') =>
      ({| ss_plan := Some plan; ss_progress := ss_progress ss |}, log EvSuccess w')
  | (Raise e, w') => (ss, log (EvError e) w')
  end.

(** [main] up to the end of the input section. *)
Definition main_input_section (i : inputs) (clicked : bool) (ss : session_state)
  (w : world) : session_state * world :=
  let ss := init_session ss in
  if clicked then on_generate i ss w else (ss, w).

(** ** main: the progress figure *)

(** [sum(len(w['topics']) for w in weeks)] *)
Fixpoint count_topics (weeks : list value) : result Z :=
  match weeks with
  | [] => Return 0
  | w :: rest =>
      (topics <- py_getitem w (VStr "topics") ;;
       n <- py_len topics ;;
       m <- count_topics rest ;;
       Return (n + m))%result
  end.

(** [progress.get(name, False)] *)
Definition progress_get (progress : progress_map) (name : value) : result bool :=
  match name with
  | VAtom a =>
      Return match find (fun kv => key_eqb a (fst kv)) progress with
             | Some kv => snd kv
             | None => false
             end
  | _ => Raise TypeError                           (* unhashable *)
  end.

Fixpoint count_checked_topics (progress : progress_map) (topics : list value)
  : result Z :=
  match topics with
  | [] => Return 0
  | t :: rest =>
      (name <- py_getitem t (VStr "name") ;;
       b <- progress_get progress name ;;
       m <- count_checked_topics progress rest ;;
       Return (Z_of_bool b + m))%result
  end.

(** [sum(progress.get(t['name'], False) for w in weeks for t in w['topics'])] *)
Fixpoint count_checked (progress : progress_map) (weeks : list value) : result Z :=
  match weeks with
  | [] => Return 0
  | w :: rest =>
      (topics <- py_getitem w (VStr "topics") ;;
       items <- py_iter topics ;;
       n <- count_checked_topics progress items ;;
       m <- count_checked progress rest ;;
       Return (n + m))%result
  end.

(** Lines 214-217. The quotient is kept exact; Python rounds it to the
    nearest float. *)
Definition progress_fraction (plan : value) (progress : progress_map) : result Q :=
  (weeks <- py_getitem plan (VStr "weeks") ;;
   items <- py_iter weeks ;;
   total_topics <- count_topics items ;;
   weeks' <- py_getitem plan (VStr "weeks") ;;
   items' <- py_iter weeks' ;;
   completed <- count_checked progress items' ;;
   Return (if total_topics >? 0
           then (inject_Z completed / inject_Z total_topics)%Q
           else 0%Q))%result.

End Program.

(** ** main: a checkbox of the weekly details *)

(** [progress[name] = checked] *)
Fixpoint progress_set (name : atom) (checked : bool) (progress : progress_map)
  : progress_map :=
  match progress with
  | [] => [(name, checked)]
  | (k, b) :: rest =>
      if key_eqb name k then (k, checked) :: rest
      else (k, b) :: progress_set name checked rest
  end.

(** Lines 234-245 for one topic. [checked] is what [st.checkbox]
    returns, [plan_id] the value of [st.session_state.plan['_id']]
    (an ObjectId or another scalar). The result is the progress
    mapping as the block leaves it, the outcome of the block and the
    world: the mapping is assigned before the collection is written. *)
Definition on_checkbox (E : env) (plan_id : atom) (topic : value)
  (checked : bool) (progress : progress_map) (w : world)
  : progress_map * result unit * world :=
  match py_getitem topic (VStr "name") with
  | Raise e => (progress, Raise e, w)
  | Return name =>
      match progress_get progress name with
      | Raise e => (progress, Raise e, w)
      | Return current =>
          if Bool.eqb checked current then (progress, Return tt, w)
          else
            match name with
            | VAtom a =>
                let (r, w') := update_progress E plan_id name checked w in
                (progress_set a checked progress, r, w')
            | _ => (progress, Raise TypeError, w)
            end
      end
  end.

(** ** main: the video card of a topic *)





(* ================================================================== *)
(** * Vocabulary of the properties *)
(* ================================================================== *)

(** ** Plans *)

(** A plan with a non-empty list under ['weeks']. *)
Definition nonempty_weeks (plan : value) : Prop :=
  exists d w ws,
    plan = VDict d /\ dict_get (AStr "weeks") d = Some (VList (w :: ws)).

Definition items_of (r : result value) : list value :=
  match r with
  | Return v =>
      match py_iter v with
      | Return l => l
      | Raise _ => []
      end
  | Raise _ => []
  end.

(** The weeks of a plan and the topics of a week, in order. *)
Definition plan_weeks (plan : value) : list value :=
  items_of (py_getitem plan (VStr "weeks")).

Definition week_topics (week : value) : list value :=
  items_of (py_getitem week (VStr "topics")).

Definition all_topics (plan : value) : list value :=
  flat_map week_topics (plan_weeks plan).

Definition topic_name (topic : value) : value :=
  match py_getitem topic (VStr "name") with
  | Return n => n
  | Raise _ => VNone
  end.

(** The query of a topic: its name, a space, the subject. *)
Definition topic_query (subject : string) (topic : value) : string :=
  (py_str (topic_name topic) ++ " " ++ subject)%string.

(** A record with exactly the four fields of a video, the url built
    from the id. *)
Definition video_ref (v : value) : Prop :=
  exists id title thumbnail,
    v = VDict [(AStr "id", id);
               (AStr "title", title);
               (AStr "url", VStr ("https://youtube.com/watch?v=" ++ py_str id));
               (AStr "thumbnail", thumbnail)].

(** A topic dict with a ['video'] key that holds a video record or [None]. *)
Definition has_video (topic : value) : Prop :=
  exists d v,
    topic = VDict d /\ dict_get (AStr "video") d = Some v
    /\ (v = VNone \/ video_ref v).

(** A field that is populated: a string that is not empty. *)
Definition populated (v : value) : Prop :=
  exists s, v = VStr s /\ s <> EmptyString.

(** A video record with all four fields populated. *)
Definition populated_video_ref (v : value) : Prop :=
  exists id title url thumbnail,
    v = VDict [(AStr "id", id);
               (AStr "title", title);
               (AStr "url", url);
               (AStr "thumbnail", thumbnail)]
    /\ populated id /\ populated title /\ populated url /\ populated thumbnail.

(** An outcome that is such a record or [None], and nothing else. *)
Definition record_or_absent (r : result value) : Prop :=
  r = Return VNone \/ exists v, r = Return v /\ populated_video_ref v.

(** The record made of what a search result gives. *)
Definition video_record (id title thumbnail : value) : value :=
  VDict [(AStr "id", id);
         (AStr "title", title);
         (AStr "url", VStr ("https://youtube.com/watch?v=" ++ py_str id));
         (AStr "thumbnail", thumbnail)].

(** The search result [video] has an id, a title and a first
    thumbnail. *)
Definition first_result (video id title thumbnail : value) : Prop :=
  exists thumbnails,
    py_getitem video (VStr "id") = Return id
    /\ py_getitem video (VStr "title") = Return title
    /\ py_getitem video (VStr "thumbnails") = Return thumbnails
    /\ py_getitem thumbnails (VInt 0) = Return thumbnail.

(** [e] is what the first failing lookup among [video['id']],
    [video['title']], [video['thumbnails']] and [...[0]] raises. *)
Definition lookup_error (video : value) (e : exn) : Prop :=
  py_getitem video (VStr "id") = Raise e
  \/ exists id,
       py_getitem video (VStr "id") = Return id
       /\ (py_getitem video (VStr "title") = Raise e
           \/ exists title,
                py_getitem video (VStr "title") = Return title
                /\ (py_getitem video (VStr "thumbnails") = Raise e
                    \/ exists thumbnails,
                         py_getitem video (VStr "thumbnails") = Return thumbnails
                         /\ py_getitem thumbnails (VInt 0) = Raise e)).


(** What the generate button sends to the chain. *)
Definition request (i : inputs) : chain_input :=
  {| ci_subject := subject i;
     ci_current_level := current_level i;
     ci_target_level := target_level i;
     ci_hours_per_week := hours_per_week i;
     ci_weeks := 4 |}.

(** [pat] occurs somewhere in [s]. *)
Fixpoint occurs (pat s : string) : bool :=
  String.prefix pat s
  || match s with
     | EmptyString => false
     | String _ rest => occurs pat rest
     end.

(** The number of backticks [s] starts with. *)
Fixpoint ticks (s : string) : nat :=
  match s with
  | String c rest => if Ascii.eqb c "`" then S (ticks rest) else O
  | EmptyString => O
  end.

(** ** Histories *)

Definition search_queries (evs : list event) : list string :=
  flat_map (fun ev => match ev with
                      | EvSearch q _ _ => [q]
                      | _ => []
                      end) evs.

Definition invocations (evs : list event) : list chain_input :=
  flat_map (fun ev => match ev with
                      | EvInvoke i _ => [i]
                      | _ => []
                      end) evs.

Definition is_search (ev : event) : Prop :=
  match ev with
  | EvSearch _ _ _ => True
  | _ => False
  end.

Definition is_insert (ev : event) : Prop :=
  match ev with
  | EvInsertOne _ _ => True
  | _ => False
  end.

(** A search whose answer makes [find_youtube_video] raise: the search
    itself raised, or its first result lacks a field. *)
Definition lookup_raises (ev : event) : Prop :=
  match ev with
  | EvSearch _ _ (Raise _) => True
  | EvSearch _ _ (Return results) =>
      exists e, video_of_results results = Raise e
  | _ => False
  end.

(** [w'] is [w] after the events [evs], with the collection untouched. *)
Definition extends (w w' : world) (evs : list event) : Prop :=
  history w' = history w ++ evs /\ plans w' = plans w.

Definition is_dict (v : value) : Prop := exists d, v = VDict d.

(** ** Progress *)

Definition is_checked (progress : progress_map) (name : atom) : bool :=
  match find (fun kv => key_eqb name (fst kv)) progress with
  | Some kv => snd kv
  | None => false
  end.

Fixpoint sequence {A} (l : list (option A)) : option (list A) :=
  match l with
  | [] => Some []
  | Some x :: rest =>
      match sequence rest with
      | Some xs => Some (x :: xs)
      | None => None
      end
  | None :: _ => None
  end.

Definition iterable (r : result value) : option (list value) :=
  match r with
  | Return v =>
      match py_iter v with
      | Return l => Some l
      | Raise _ => None
      end
  | Raise _ => None
  end.

Definition hashable_name (topic : value) : option atom :=
  match py_getitem topic (VStr "name") with
  | Return (VAtom a) => Some a
  | _ => None
  end.

(** The topics of a week, when it has an iterable ['topics']. *)
Definition topics_of (week : value) : option (list value) :=
  iterable (py_getitem week (VStr "topics")).

Definition week_names (week : value) : option (list atom) :=
  match topics_of week with
  | Some topics => sequence (map hashable_name topics)
  | None => None
  end.

(** The names of all topics of all weeks, when the plan has weeks,
    every week has topics and every topic has a hashable name. *)
Definition topic_names (plan : value) : option (list atom) :=
  match iterable (py_getitem plan (VStr "weeks")) with
  | Some weeks =>
      match sequence (map week_names weeks) with
      | Some names => Some (List.concat names)
      | None => None
      end
  | None => None
  end.

(** Checked topics over all topics, and 0 for no topics. *)
Definition checked_ratio (progress : progress_map) (names : list atom) : Q :=
  match names with
  | [] => 0%Q
  | _ :: _ =>
      (Z.of_nat (List.length (filter (is_checked progress) names))
       # Pos.of_nat (List.length names))%Q
  end.

(** The key a key is equal to as a dict key: [True] is [1] and
    [False] is [0]. *)
Definition key_norm (a : atom) : atom :=
  match a with
  | ABool b => AInt (Z_of_bool b)
  | _ => a
  end.

(** The stored mapping with the items of the session's mapping. *)
Definition stored_progress (progress : progress_map) : value :=
  VDict (map (fun kv => (fst kv, VBool (snd kv))) progress).

(** ** The collection *)



(** No two documents have the same [_id]. *)
Definition distinct_ids (c : collection) : Prop :=
  ForallOrdPairs (fun d d' => value_eqb (doc_id d) (doc_id d') = false) c.

(** A topic name that is one path component the server accepts: not
    empty, no dot, no NUL, no leading [$]. *)
Definition plain_name (s : string) : Prop :=
  s <> EmptyString /\ string_mem "." s = false /\ has_nul s = false
  /\ starts_with_dollar s = false.

(** ** Enrichment *)

(** [t'] is the topic [t] after its search [ev]: a dict, searched by
    its query, holding under ['video'] what the search's results give. *)
Definition enriched_topic (subject : string) (ev : event) (t t' : value) : Prop :=
  exists d results video,
    t = VDict d
    /\ ev = EvSearch (topic_query subject t) 1 (Return results)
    /\ video_of_results results = Return video
    /\ t' = VDict (dict_set (AStr "video") video d).

Inductive enriched_topics (subject : string)
  : list event -> list value -> list value -> Prop :=
| enriched_nil : enriched_topics subject [] [] []
| enriched_cons ev t t' evs ts ts' :
    enriched_topic subject ev t t' ->
    enriched_topics subject evs ts ts' ->
    enriched_topics subject (ev :: evs) (t :: ts) (t' :: ts').

(** [l] is the beginning of [full]. *)
Definition begins {A} (l full : list A) : Prop := exists rest, full = l ++ rest.

(** The searches [evs] of a loop over [topics] that goes on as long as
    the lookups work: they are the queries of the first topics, in
    order, and no search but the last makes the lookup raise; when the
    loop is [complete] every topic was searched and no lookup raised. *)
Definition loop_searches (subject : string) (topics : list value)
  (evs : list event) (complete : bool) : Prop :=
  Forall is_search evs
  /\ begins (search_queries evs) (map (topic_query subject) topics)
  /\ Forall (fun ev => ~ lookup_raises ev) (removelast evs)
  /\ (complete = true ->
      search_queries evs = map (topic_query subject) topics
      /\ Forall (fun ev => ~ lookup_raises ev) evs).

Definition returned {A} (r : result A) : bool :=
  match r with
  | Return _ => true
  | Raise _ => false
  end.

(** [obj'] has under every key but [key] what [obj] has. *)
Definition same_but (key : string) (obj obj' : value) : Prop :=
  exists d d',
    obj = VDict d /\ obj' = VDict d'
    /\ forall k, k <> key -> dict_get (AStr k) d' = dict_get (AStr k) d.

(** ** Paths *)

Fixpoint is_prefix (p q : list string) : bool :=
  match p, q with
  | [], _ => true
  | a :: p', b :: q' => String.eqb a b && is_prefix p' q'
  | _ :: _, [] => false
  end.

(** Two paths neither of which leads to the other's field or to a
    field inside it. *)
Definition apart (p q : list string) : Prop :=
  is_prefix p q = false /\ is_prefix q p = false.

(* ================================================================== *)
(** * Sample runs *)
(* ================================================================== *)

Definition lines (l : list string) : string :=
  String.concat (char_string newline) l.

Definition sample_response : string :=
  lines ["```json";
         "{'weeks': [{'week_number': 1, 'focus_area': 'Basics',";
         "            'objectives': ['Get started'],";
         "            'topics': [{'name': 'Loops', 'hours': 2,";
         "                        'description': 'for and while'},";
         "                       {'name': 'Functions', 'hours': 3,";
         "                        'description': 'def and return'}],";
         "            'recommended_hours': 10}]}";
         "```"]%string.

Definition empty_weeks_response : string :=
  lines ["```json"; "{'weeks': []}"; "```"]%string.

Definition sample_video (title : string) : value :=
  VDict [(AStr "id", VStr "dQw4w9WgXcQ");
         (AStr "thumbnails", VList [VStr "https://i.ytimg.com/vi/dQw4w9WgXcQ/hq720.jpg"]);
         (AStr "title", VStr title);
         (AStr "channel", VStr "Tutorials");
         (AStr "url_suffix", VStr "/watch?v=dQw4w9WgXcQ")].

(** An outside that answers every model call with [response], every
    search with [videos query], evaluates display literals and never
    loses the connection to the collection. *)
Definition sample_env (response : result string)
  (videos : string -> result (list value)) : env :=
  {| chain_invoke := fun _ _ => response;
     py_eval := literal_eval;
     youtube_search := fun _ query _ => videos query;
     datetime_now := fun _ => mk_datetime 2024 5 1 9 30 0 0;
     new_object_id := fun h => zero_pad 24 (decimal (Z.of_nat (List.length h)));
     driver_fault := fun _ => None |}.

(** A result whose fields the search left unfilled, and one without
    thumbnails. *)
Definition unfilled_video : value :=
  VDict [(AStr "id", VNone);
         (AStr "thumbnails", VList [VNone]);
         (AStr "title", VNone)].

Definition no_thumbnail_video : value :=
  VDict [(AStr "id", VStr "dQw4w9WgXcQ");
         (AStr "thumbnails", VList []);
         (AStr "title", VStr "Loops in five minutes")].

Definition found (query : string) : result (list value) :=
  Return [sample_video query].

Definition search_down (query : string) : result (list value) :=
  Raise (External "ConnectionError" "search unreachable").

(** The search fails for the second topic only. *)
Definition second_fails (query : string) : result (list value) :=
  if String.eqb query "Functions Machine Learning" then search_down query
  else found query.

(** The search fails for the second topic; the model is out of quota;
    everything works. *)
Definition failing_search_env : env :=
  sample_env (Return sample_response) second_fails.

Definition model_down_env : env :=
  sample_env (Raise (External "ResourceExhausted" "quota exceeded")) found.

Definition working_env : env :=
  sample_env (Return sample_response) found.

(** The collection cannot be reached. *)
Definition store_down_env : env :=
  {| chain_invoke := chain_invoke working_env;
     py_eval := literal_eval;
     youtube_search := youtube_search working_env;
     datetime_now := datetime_now working_env;
     new_object_id := new_object_id working_env;
     driver_fault := fun _ =>
       Some (External "ServerSelectionTimeoutError" "no servers found") |}.

(** The search answers with an unfilled result; with a result that has
    no thumbnail. *)
Definition unfilled_env : env :=
  sample_env (Return sample_response) (fun _ => Return [unfilled_video]).

Definition no_thumbnail_env : env :=
  sample_env (Return sample_response) (fun _ => Return [no_thumbnail_video]).

Definition ml_inputs : inputs :=
  {| subject := "Machine Learning";
     current_level := "Beginner";
     target_level := "Intermediate";
     hours_per_week := 10 |}.

Definition empty_world : world := {| history := []; plans := [] |}.

Definition fresh_session : session_state :=
  {| ss_plan := None; ss_progress := None |}.

Definition old_plan : value :=
  VDict [(AStr "weeks", VList []); (AStr "_id", VAtom (AObjectId "000000000000000000000007"))].

Definition session_with_plan : session_state :=
  {| ss_plan := Some old_plan; ss_progress := Some [] |}.

(** A stored plan with nothing checked yet. *)
Definition stored_plan : document :=
  [(AStr "_id", VAtom (AObjectId "000000000000000000000007"));
   (AStr "weeks", VList []);
   (AStr "subject", VStr "Machine Learning");
   (AStr "progress", VDict [])].

Definition world_with_plan : world :=
  {| history := []; plans := [stored_plan] |}.


(* ================================================================== *)
(** * Facts about Python values *)
(* ================================================================== *)

(** ** Sample evaluations *)

Example str_replace_fence :
  str_replace "```json{'a': 1}```" "```json" EmptyString = "{'a': 1}```"%string
  /\ str_replace "```````a``" "```" EmptyString = "`a``"%string.
Proof. split; reflexivity. Qed.

Example py_str_examples :
  py_str (VStr "Loops") = "Loops"%string
  /\ py_str (VInt (-7)) = "-7"%string
  /\ py_str (VList [VStr "a'b"; VNone; VBool true])
     = String "[" (String dquote ("a'b" ++ String dquote ", None, True]"))
  /\ py_str (VDict [(AStr "k", VInt 1)]) = "{'k': 1}"%string
  /\ py_str (VAtom (ADatetime (mk_datetime 2024 5 1 9 30 0 0)))
     = "2024-05-01 09:30:00"%string.
Proof. repeat split; reflexivity. Qed.

Example literal_eval_examples :
  literal_eval "{'weeks': [{'topics': [{'name': 'Loops', 'hours': 2}], }]}"
  = Return (VDict [(AStr "weeks",
                    VList [VDict [(AStr "topics",
                                   VList [VDict [(AStr "name", VStr "Loops");
                                                 (AStr "hours", VInt 2)]])]])])
  /\ literal_eval "{'done': true}" = Raise (NameError "true")
  /\ literal_eval "{[1]: 2}" = Raise TypeError
  /\ literal_eval "{1: 2, True: 3}" = Return (VDict [(AInt 1, VInt 3)])
  /\ literal_eval "[1, 007]" = Raise SyntaxError.
Proof. repeat split; reflexivity. Qed.

(** ** Dicts and subscription *)

Arguments key_eqb : simpl never.

Lemma datetime_eqb_refl (d : datetime) : datetime_eqb d d = true.
Proof.
  unfold datetime_eqb. now rewrite !N.eqb_refl.
Qed.

Lemma key_eqb_refl (a : atom) : key_eqb a a = true.
Proof.
  destruct a; unfold key_eqb;
    auto using Z.eqb_refl, String.eqb_refl, datetime_eqb_refl.
  now destruct b.
Qed.

(** Only the same string equals a string key. *)
Lemma key_eqb_str (s : string) (k : atom) :
  key_eqb (AStr s) k = true -> k = AStr s.
Proof.
  destruct k; unfold key_eqb; try discriminate.
  intros H. apply String.eqb_eq in H. now subst.
Qed.

Lemma key_eqb_str_neq (s t : string) :
  s <> t -> key_eqb (AStr s) (AStr t) = false.
Proof.
  intros H. unfold key_eqb. now apply String.eqb_neq.
Qed.

Lemma dict_get_set_same (k : atom) (v : value) (d : dict) :
  dict_get k (dict_set k v d) = Some v.
Proof.
  induction d as [|[k' v'] d IH]; simpl.
  - now rewrite key_eqb_refl.
  - destruct (key_eqb k k') eqn:Hk; simpl; now rewrite Hk.
Qed.

Lemma dict_get_set_other (a b : string) (v : value) (d : dict) :
  a <> b ->
  dict_get (AStr a) (dict_set (AStr b) v d) = dict_get (AStr a) d.
Proof.
  intros Hab.
  pose proof (key_eqb_str_neq Hab) as Hf.
  induction d as [|[k' v'] d IH]; simpl.
  - now rewrite Hf.
  - destruct (key_eqb (AStr b) k') eqn:Hb.
    + apply key_eqb_str in Hb. subst k'. simpl. now rewrite Hf.
    + simpl. destruct (key_eqb (AStr a) k'); auto.
Qed.

(** Storing again what a key already holds changes nothing. *)
Lemma dict_set_same (k : atom) (v : value) (d : dict) :
  dict_get k d = Some v -> dict_set k v d = d.
Proof.
  induction d as [|[k' v'] d IH]; simpl; [discriminate|].
  destruct (key_eqb k k'); intros H.
  - now inversion H.
  - now rewrite IH.
Qed.

Lemma dict_get_app_new (a : string) (k : atom) (v : value) (d : dict) :
  dict_get (AStr a) d = None ->
  dict_get (AStr a) (d ++ [(k, v)]) =
  if key_eqb (AStr a) k then Some v else None.
Proof.
  induction d as [|[k' v'] d IH]; simpl; auto.
  destruct (key_eqb (AStr a) k'); [discriminate | auto].
Qed.

Lemma dict_get_app_old (k k' : atom) (v w : value) (d : dict) :
  dict_get k d = Some v -> dict_get k (d ++ [(k', w)]) = Some v.
Proof.
  induction d as [|[k1 v1] d IH]; simpl; [discriminate|].
  destruct (key_eqb k k1); auto.
Qed.

(** Subscription by a string succeeds on dicts only. *)
Lemma py_getitem_str (obj : value) (k : string) (v : value) :
  py_getitem obj (VStr k) = Return v ->
  exists d, obj = VDict d /\ dict_get (AStr k) d = Some v.
Proof.
  destruct obj as [a|l|d]; cbv [py_getitem seq_getitem as_index].
  - destruct a; discriminate.
  - discriminate.
  - destruct (dict_get (AStr k) d) eqn:Hg; [|discriminate].
    intros H. inversion H; subst. eauto.
Qed.

Lemma py_getitem_str_atom (a : atom) (k : string) :
  exists e, py_getitem (VAtom a) (VStr k) = Raise e.
Proof.
  destruct a; cbv [py_getitem seq_getitem as_index]; eauto.
Qed.

(** Iterating anything but a list visits atoms. *)
Lemma py_iter_not_list (obj : value) (l : list value) :
  py_iter obj = Return l ->
  (exists l', obj = VList l') \/ Forall (fun x => exists a, x = VAtom a) l.
Proof.
  destruct obj as [a|l'|d]; simpl.
  - destruct a; try discriminate.
    intros H. inversion H; subst. right. unfold chars.
    apply Forall_forall. intros x Hx. apply in_map_iff in Hx.
    destruct Hx as (c & <- & _). eauto.
  - eauto.
  - intros H. inversion H; subst. right.
    apply Forall_forall. intros x Hx. apply in_map_iff in Hx.
    destruct Hx as (kv & <- & _). eauto.
Qed.

(* ================================================================== *)
(** * Runs of the program *)
(* ================================================================== *)

Lemma extends_refl (w : world) : extends w w [].
Proof.
  split; [now rewrite app_nil_r | reflexivity].
Qed.

Lemma extends_log (ev : event) (w : world) : extends w (log ev w) [ev].
Proof.
  split; reflexivity.
Qed.

Lemma extends_trans (w1 w2 w3 : world) (e1 e2 : list event) :
  extends w1 w2 e1 -> extends w2 w3 e2 -> extends w1 w3 (e1 ++ e2).
Proof.
  intros [H1 P1] [H2 P2]. split.
  - now rewrite H2, H1, app_assoc.
  - congruence.
Qed.

Lemma search_queries_app (a b : list event) :
  search_queries (a ++ b) = search_queries a ++ search_queries b.
Proof.
  unfold search_queries. now rewrite flat_map_app.
Qed.

Lemma video_of_results_ok (rs : list value) (v : value) :
  video_of_results rs = Return v -> v = VNone \/ video_ref v.
Proof.
  destruct rs as [|video rest]; unfold video_of_results.
  - intros H. inversion H. now left.
  - unfold result_bind.
    destruct (py_getitem video (VStr "id")) as [id|]; [|discriminate].
    destruct (py_getitem video (VStr "title")) as [title|]; [|discriminate].
    destruct (py_getitem video (VStr "thumbnails")) as [ths|]; [|discriminate].
    destruct (py_getitem ths (VInt 0)) as [th|]; [|discriminate].
    intros H. inversion H. right. now exists id, title, th.
Qed.

Section Runs.

Variable E : env.

(** One search, then the pure rest of the function. *)
Lemma find_youtube_video_run (query : string) (w : world) :
  find_youtube_video E query w =
  (match youtube_search E (history w) query 1 with
   | Return rs => video_of_results rs
   | Raise e => Raise e
   end,
   log (EvSearch query 1 (youtube_search E (history w) query 1)) w).
Proof.
  unfold find_youtube_video, bind, search, lift.
  now destruct (youtube_search E (history w) query 1).
Qed.

Lemma find_youtube_video_returns (query : string) (w w' : world) (v : value) :
  find_youtube_video E query w = (Return v, w') ->
  exists ev, w' = log ev w /\ is_search ev /\ ~ lookup_raises ev
             /\ search_queries [ev] = [query] /\ (v = VNone \/ video_ref v).
Proof.
  rewrite find_youtube_video_run. intros H. inversion H as [[H1 H2]]. clear H.
  exists (EvSearch query 1 (youtube_search E (history w) query 1)).
  destruct (youtube_search E (history w) query 1) as [rs|e]; [|discriminate].
  repeat split; auto.
  - simpl. intros [e He]. congruence.
  - eapply video_of_results_ok; eauto.
Qed.

Lemma find_youtube_video_raises (query : string) (w w' : world) (e : exn) :
  find_youtube_video E query w = (Raise e, w') ->
  exists ev, w' = log ev w /\ is_search ev.
Proof.
  rewrite find_youtube_video_run. intros H. inversion H.
  eexists. split; [reflexivity | exact I].
Qed.

Lemma enrich_topics_run (s : string) (topics : list value) :
  forall w r w',
    enrich_topics E s topics w = (r, w') ->
    exists evs,
      extends w w' evs /\ Forall is_search evs /\
      match r with
      | Return topics' =>
          search_queries evs = map (topic_query s) topics
          /\ Forall (fun ev => ~ lookup_raises ev) evs
          /\ Forall is_dict topics
          /\ Forall has_video topics'
      | Raise _ => True
      end.
Proof.
  induction topics as [|topic rest IH]; intros w r w' H.
  - inversion H; subst. exists [].
    split; [apply extends_refl | repeat split; constructor].
  - simpl in H. unfold bind at 1, lift at 1 in H.
    destruct (py_getitem topic (VStr "name")) as [name|e] eqn:Hname.
    2:{ inversion H; subst. exists [].
        split; [apply extends_refl | split; [constructor | exact I]]. }
    unfold bind at 1 in H.
    destruct (find_youtube_video E _ w) as [[video|e] w1] eqn:Hfind.
    2:{ inversion H; subst. apply find_youtube_video_raises in Hfind.
        destruct Hfind as (ev & -> & Hs). exists [ev].
        split; [apply extends_log | split; [now constructor | exact I]]. }
    apply find_youtube_video_returns in Hfind.
    destruct Hfind as (ev & -> & Hs & Hok & Hq & Hv).
    apply py_getitem_str in Hname. destruct Hname as (d & -> & Hd).
    unfold bind at 1, lift at 1 in H. simpl py_setitem in H.
    unfold bind at 1 in H.
    destruct (enrich_topics E s rest (log ev w)) as [[rest'|e] w2] eqn:Hrest.
    + inversion H; subst. clear H.
      apply IH in Hrest.
      destruct Hrest as (evs & Hext & Hss & Hqs & Hoks & Hds & Hvs).
      exists (ev :: evs). split; [|split; [|repeat split]].
      * apply (extends_trans (extends_log ev w) Hext).
      * now constructor.
      * change (ev :: evs) with ([ev] ++ evs).
        rewrite search_queries_app, Hq, Hqs. simpl.
        unfold topic_query, topic_name. simpl. now rewrite Hd.
      * now constructor.
      * constructor; auto. now exists d.
      * constructor; auto. exists (dict_set (AStr "video") video d), video.
        repeat split; auto using dict_get_set_same.
    + inversion H; subst. clear H.
      apply IH in Hrest. destruct Hrest as (evs & Hext & Hss & _).
      exists (ev :: evs). split; [|split; [|exact I]].
      * apply (extends_trans (extends_log ev w) Hext).
      * now constructor.
Qed.

(** What a container holds after a loop over it that returned. *)
Lemma items_after_loop (P : value -> Prop) (d : dict) (key : string)
  (container : value) (items items' : list value) :
  dict_get (AStr key) d = Some container ->
  py_iter container = Return items ->
  Forall is_dict items ->
  Forall P items' ->
  Forall P (items_of (py_getitem (put_back (VDict d) key (rebuild container items'))
                                 (VStr key))).
Proof.
  intros Hget Hiter Hdicts HP. simpl. rewrite dict_get_set_same. simpl.
  destruct (py_iter_not_list _ Hiter) as [[l ->]|Hatoms]; [exact HP|].
  assert (items = []) as ->.
  { destruct items as [|x rest]; [reflexivity|].
    inversion Hdicts as [|? ? [dx ->] _]. inversion Hatoms as [|? ? [a Ha] _].
    discriminate. }
  destruct container as [a|l|dc]; simpl in *.
  - destruct a; try discriminate. inversion Hiter as [Hc]. rewrite Hc. constructor.
  - exact HP.
  - inversion Hiter as [Hc]. rewrite Hc. constructor.
Qed.

Lemma enrich_week_run (s : string) (week : value) (w : world)
  (r : result value) (w' : world) :
  enrich_week E s week w = (r, w') ->
  exists evs,
    extends w w' evs /\ Forall is_search evs /\
    match r with
    | Return week' =>
        search_queries evs = map (topic_query s) (week_topics week)
        /\ Forall (fun ev => ~ lookup_raises ev) evs
        /\ is_dict week
        /\ Forall has_video (week_topics week')
    | Raise _ => True
    end.
Proof.
  unfold enrich_week. unfold bind at 1, lift at 1.
  destruct (py_getitem week (VStr "topics")) as [topics|e] eqn:Hget.
  2:{ intros H. inversion H; subst. exists [].
      split; [apply extends_refl | split; [constructor | exact I]]. }
  unfold bind at 1, lift at 1.
  destruct (py_iter topics) as [items|e] eqn:Hiter.
  2:{ intros H. inversion H; subst. exists [].
      split; [apply extends_refl | split; [constructor | exact I]]. }
  unfold bind at 1.
  destruct (enrich_topics E s items w) as [[items'|e] w1] eqn:Hloop;
    intros H; inversion H; subst; clear H;
    apply enrich_topics_run in Hloop;
    destruct Hloop as (evs & Hext & Hss & Hrest); exists evs;
    (split; [exact Hext | split; [exact Hss |]]); [|exact I].
  destruct Hrest as (Hq & Hok & Hdicts & Hvideos).
  pose proof Hget as Hget'.
  apply py_getitem_str in Hget'. destruct Hget' as (d & -> & Hd).
  repeat split; auto.
  - unfold week_topics. rewrite Hget. simpl. now rewrite Hiter.
  - now exists d.
  - unfold week_topics. eapply items_after_loop; eauto.
Qed.

Lemma enrich_weeks_run (s : string) (weeks : list value) :
  forall w r w',
    enrich_weeks E s weeks w = (r, w') ->
    exists evs,
      extends w w' evs /\ Forall is_search evs /\
      match r with
      | Return weeks' =>
          search_queries evs = map (topic_query s) (flat_map week_topics weeks)
          /\ Forall (fun ev => ~ lookup_raises ev) evs
          /\ Forall is_dict weeks
          /\ Forall has_video (flat_map week_topics weeks')
      | Raise _ => True
      end.
Proof.
  induction weeks as [|week rest IH]; intros w r w' H.
  - inversion H; subst. exists [].
    split; [apply extends_refl | repeat split; constructor].
  - simpl in H. unfold bind at 1 in H.
    destruct (enrich_week E s week w) as [[week'|e] w1] eqn:Hweek;
      apply enrich_week_run in Hweek;
      destruct Hweek as (evs1 & Hext1 & Hss1 & Hr1).
    2:{ inversion H; subst. exists evs1. auto. }
    destruct Hr1 as (Hq1 & Hok1 & Hd1 & Hv1).
    unfold bind at 1 in H.
    destruct (enrich_weeks E s rest w1) as [[rest'|e] w2] eqn:Hrest;
      apply IH in Hrest; destruct Hrest as (evs2 & Hext2 & Hss2 & Hr2);
      inversion H; subst; clear H;
      exists (evs1 ++ evs2);
      (split; [exact (extends_trans Hext1 Hext2) |
               split; [now apply Forall_app |]]); [|exact I].
    destruct Hr2 as (Hq2 & Hok2 & Hd2 & Hv2).
    repeat split.
    + simpl. now rewrite search_queries_app, map_app, Hq1, Hq2.
    + now apply Forall_app.
    + now constructor.
    + simpl. now apply Forall_app.
Qed.

Lemma add_videos_run (s : string) (plan : value) (w : world)
  (r : result value) (w' : world) :
  add_videos E s plan w = (r, w') ->
  exists evs,
    extends w w' evs /\ Forall is_search evs /\
    match r with
    | Return plan' =>
        search_queries evs = map (topic_query s) (all_topics plan)
        /\ Forall (fun ev => ~ lookup_raises ev) evs
        /\ is_dict plan'
        /\ Forall has_video (all_topics plan')
    | Raise _ => True
    end.
Proof.
  unfold add_videos. unfold bind at 1, lift at 1.
  destruct (py_getitem plan (VStr "weeks")) as [weeks|e] eqn:Hget.
  2:{ intros H. inversion H; subst. exists [].
      split; [apply extends_refl | split; [constructor | exact I]]. }
  unfold bind at 1, lift at 1.
  destruct (py_iter weeks) as [items|e] eqn:Hiter.
  2:{ intros H. inversion H; subst. exists [].
      split; [apply extends_refl | split; [constructor | exact I]]. }
  unfold bind at 1.
  destruct (enrich_weeks E s items w) as [[items'|e] w1] eqn:Hloop;
    intros H; inversion H; subst; clear H;
    apply enrich_weeks_run in Hloop;
    destruct Hloop as (evs & Hext & Hss & Hrest); exists evs;
    (split; [exact Hext | split; [exact Hss |]]); [|exact I].
  destruct Hrest as (Hq & Hok & Hdicts & Hvideos).
  pose proof Hget as Hget'.
  apply py_getitem_str in Hget'. destruct Hget' as (d & -> & Hd).
  repeat split; auto.
  - unfold all_topics, plan_weeks. rewrite Hget. simpl. now rewrite Hiter.
  - simpl. unfold is_dict. eauto.
  - unfold all_topics, plan_weeks.
    apply Forall_flat_map.
    eapply items_after_loop
      with (P := fun week => Forall has_video (week_topics week)); eauto.
    now apply Forall_flat_map.
Qed.

Lemma generate_study_plan_run (i : inputs) (w : world) :
  generate_study_plan E (subject i) (current_level i) (target_level i)
                      (hours_per_week i) w =
  (match chain_invoke E (history w) (request i) with
   | Return content => py_eval E (strip_fences content)
   | Raise e => Raise e
   end,
   log (EvInvoke (request i) (chain_invoke E (history w) (request i))) w).
Proof.
  unfold generate_study_plan, bind, invoke, lift, request.
  now destruct (chain_invoke E (history w) _).
Qed.

Lemma insert_one_cases (c : collection) (doc : value) (fresh : string)
  (r : result value) (c' : collection) :
  insert_one c doc fresh = (r, c') ->
  match r with
  | Return _ => exists stored, c' = c ++ [stored]
  | Raise _ => c' = c
  end.
Proof.
  unfold insert_one. destruct doc as [a|l|d]; try (intros H; now inversion H).
  destruct (encode_error _); [intros H; now inversion H|].
  destruct (dict_get (AStr "_id") d) as [[a|l|d']|];
    try (intros H; now inversion H);
    (destruct (existsb _ c); intros H; inversion H; subst; eauto).
Qed.

Lemma save_plan_run (doc : value) (w : world) (r : result value) (w' : world) :
  save_plan E doc w = (r, w') ->
  history w' = history w ++ [EvInsertOne doc r] /\
  match r with
  | Return _ => exists stored, plans w' = plans w ++ [stored]
  | Raise _ => plans w' = plans w
  end.
Proof.
  unfold save_plan, driver_call.
  destruct (driver_fault E (history w)) as [e|].
  - intros H. inversion H; subst. split; reflexivity.
  - destruct (insert_one (plans w) doc _) as [r0 c] eqn:Hins.
    intros H. inversion H; subst. split; [reflexivity|].
    apply insert_one_cases in Hins. exact Hins.
Qed.

Lemma all_topics_with_id (d : dict) (id : value) :
  all_topics (VDict (dict_update d [(AStr "_id", id)])) = all_topics (VDict d).
Proof.
  unfold all_topics, plan_weeks, dict_update. simpl.
  now rewrite dict_get_set_other by discriminate.
Qed.

(** The shape of every run of the body of the [try]: the model call,
    the searches, then at most one insert. *)
Lemma create_plan_run (i : inputs) (w : world) (r : result value) (w' : world) :
  create_plan E i w = (r, w') ->
  exists searches tail,
    history w' =
      history w ++ EvInvoke (request i) (chain_invoke E (history w) (request i))
                   :: searches ++ tail
    /\ Forall is_search searches
    /\ match r with
       | Return final =>
           exists content plan doc id stored,
             chain_invoke E (history w) (request i) = Return content
             /\ py_eval E (strip_fences content) = Return plan
             /\ search_queries searches
                = map (topic_query (subject i)) (all_topics plan)
             /\ Forall (fun ev => ~ lookup_raises ev) searches
             /\ tail = [EvInsertOne doc (Return id)]
             /\ plans w' = plans w ++ [stored]
             /\ Forall has_video (all_topics final)
       | Raise e =>
           plans w' = plans w
           /\ (tail = []
               \/ Forall (fun ev => ~ lookup_raises ev) searches
                  /\ exists doc, tail = [EvInsertOne doc (Raise e)])
       end.
Proof.
  unfold create_plan. unfold bind at 1. rewrite generate_study_plan_run.
  set (out := chain_invoke E (history w) (request i)).
  destruct out as [content|e] eqn:Hout.
  2:{ intros H. inversion H; subst. exists [], []. simpl.
      repeat split; auto. }
  destruct (py_eval E (strip_fences content)) as [plan|e] eqn:Heval.
  2:{ intros H. inversion H; subst. exists [], []. simpl.
      repeat split; auto. }
  unfold bind at 1.
  destruct (add_videos E (subject i) plan _) as [[plan'|e] w1] eqn:Hadd;
    apply add_videos_run in Hadd;
    destruct Hadd as (evs & [Hh Hp] & Hss & Hr).
  2:{ intros H. inversion H; subst. exists evs, [].
      rewrite Hh, app_nil_r. simpl. rewrite <- app_assoc. simpl.
      repeat split; auto. }
  destruct Hr as (Hq & Hok & [d ->] & Hv).
  unfold bind at 1, lift at 1. simpl py_mapping.
  unfold bind at 1, now at 1.
  unfold bind at 1.
  destruct (save_plan E _ w1) as [[id|e] w2] eqn:Hsave;
    apply save_plan_run in Hsave; destruct Hsave as [Hh2 Hp2].
  - unfold bind, lift, ret. simpl py_mapping. intros H. inversion H; subst.
    destruct Hp2 as [stored Hp2].
    exists evs. eexists. split; [|split; [exact Hss|]].
    + rewrite Hh2, Hh. simpl. rewrite <- !app_assoc. simpl. reflexivity.
    + exists content, plan. do 2 eexists. exists stored.
      repeat split; auto.
      * now rewrite Hp2, Hp.
      * change (dict_set (AStr "_id") id d)
          with (dict_update d [(AStr "_id", id)]).
        now rewrite all_topics_with_id.
  - intros H. inversion H; subst.
    exists evs. eexists. split; [|split; [exact Hss|]].
    + rewrite Hh2, Hh. simpl. rewrite <- !app_assoc. simpl. reflexivity.
    + split; [now rewrite Hp2, Hp|]. right. split; [exact Hok|]. eauto.
Qed.

End Runs.

Lemma not_search_not_raises (ev : event) : ~ is_search ev -> ~ lookup_raises ev.
Proof.
  destruct ev; simpl; tauto.
Qed.

Lemma search_not_insert (evs : list event) :
  Forall is_search evs -> Forall (fun ev => ~ is_insert ev) evs.
Proof.
  apply Forall_impl. intros [] H; simpl in *; tauto.
Qed.

Lemma invocations_searches (evs : list event) :
  Forall is_search evs -> invocations evs = [].
Proof.
  induction 1 as [|ev evs Hev _ IH]; [reflexivity|].
  destruct ev; simpl in *; try contradiction. exact IH.
Qed.

Lemma invocations_app (a b : list event) :
  invocations (a ++ b) = invocations a ++ invocations b.
Proof.
  unfold invocations. now rewrite flat_map_app.
Qed.

Lemma search_queries_only (evs tail : list event) :
  Forall (fun ev => ~ is_search ev) tail ->
  search_queries (evs ++ tail) = search_queries evs.
Proof.
  intros H. rewrite search_queries_app.
  assert (search_queries tail = []) as ->; [|now rewrite app_nil_r].
  induction H as [|ev tail Hev _ IH]; [reflexivity|].
  destruct ev; simpl in *; try tauto.
Qed.

Lemma search_queries_run (ev : event) (searches tail : list event) :
  ~ is_search ev ->
  Forall (fun ev' => ~ is_search ev') tail ->
  search_queries (ev :: searches ++ tail) = search_queries searches.
Proof.
  intros Hev Htail.
  change (ev :: searches ++ tail) with ([ev] ++ searches ++ tail).
  rewrite search_queries_app, search_queries_only by exact Htail.
  destruct ev; simpl in *; tauto.
Qed.

(* ================================================================== *)
(** * Fence markers *)
(* ================================================================== *)

Lemma prefix_tick (c : ascii) (p s : string) :
  String.prefix (String "`" p) (String c s)
  = Ascii.eqb c "`" && String.prefix p s.
Proof.
  cbn [String.prefix].
  destruct (ascii_dec "`" c) as [<-|Hne]; [reflexivity|].
  destruct (Ascii.eqb_spec c "`"); [congruence | reflexivity].
Qed.

Lemma prefix_fence (s : string) :
  String.prefix "```" s = true <-> (3 <= ticks s)%nat.
Proof.
  destruct s as [|a s]; [simpl; split; [discriminate | lia]|].
  rewrite prefix_tick. cbn [ticks].
  destruct (Ascii.eqb a "`"); [|simpl; split; [discriminate | lia]].
  destruct s as [|b s]; [simpl; split; [discriminate | lia]|].
  rewrite prefix_tick. cbn [ticks].
  destruct (Ascii.eqb b "`"); [|simpl; split; [discriminate | lia]].
  destruct s as [|c s]; [simpl; split; [discriminate | lia]|].
  rewrite prefix_tick. cbn [ticks].
  destruct (Ascii.eqb c "`"); simpl; split; try discriminate; try lia.
  - intros _. destruct s; reflexivity.
Qed.

Lemma remove_fence_skip (s : string) (c1 c2 : ascii) :
  replace_from "```" EmptyString 2 (String c1 (String c2 s))
  = replace_from "```" EmptyString 0 s.
Proof.
  reflexivity.
Qed.

(** One step of the removal of ["```"]. *)
Lemma remove_fence_step (c : ascii) (s : string) :
  replace_from "```" EmptyString 0 (String c s) =
  if String.prefix "```" (String c s)
  then replace_from "```" EmptyString 2 s
  else String c (replace_from "```" EmptyString 0 s).
Proof.
  cbn [replace_from]. destruct (String.prefix "```" (String c s)); reflexivity.
Qed.

Lemma remove_fence_few_ticks (s : string) :
  (ticks s <= 2)%nat ->
  ticks (replace_from "```" EmptyString 0 s) = ticks s.
Proof.
  induction s as [|c s IH]; intros Hfew; [reflexivity|].
  rewrite remove_fence_step.
  destruct (String.prefix "```" (String c s)) eqn:Hp.
  - apply prefix_fence in Hp. lia.
  - cbn [ticks] in *. destruct (Ascii.eqb c "`"); [|reflexivity].
    rewrite IH by lia. reflexivity.
Qed.

(** What [replace("```", "")] returns holds no ["```"]. *)
Lemma remove_fence_clean (n : nat) :
  forall s, (String.length s <= n)%nat ->
            occurs "```" (replace_from "```" EmptyString 0 s) = false.
Proof.
  induction n as [|n IH]; intros s Hlen.
  - destruct s; [reflexivity | simpl in Hlen; lia].
  - destruct s as [|c s]; [reflexivity|].
    rewrite remove_fence_step.
    destruct (String.prefix "```" (String c s)) eqn:Hp.
    + apply prefix_fence in Hp. destruct s as [|c1 [|c2 s]].
      * cbn [ticks] in Hp. destruct (Ascii.eqb c "`"); lia.
      * cbn [ticks] in Hp.
        destruct (Ascii.eqb c "`"), (Ascii.eqb c1 "`"); lia.
      * rewrite remove_fence_skip. apply IH. simpl in Hlen. lia.
    + cbn [occurs]. rewrite IH by (simpl in Hlen; lia).
      rewrite orb_false_r.
      destruct (String.prefix "```" (String c (replace_from "```" EmptyString 0 s)))
        eqn:Hq; [|reflexivity].
      exfalso. apply prefix_fence in Hq.
      assert (Hs : ~ (3 <= ticks (String c s))%nat).
      { intros H. apply prefix_fence in H. congruence. }
      cbn [ticks] in *. destruct (Ascii.eqb c "`"); [|lia].
      rewrite remove_fence_few_ticks in Hq by lia. lia.
Qed.

(** The text handed to [eval] holds no fence marker. *)
Lemma strip_fences_clean (content : string) :
  occurs "```" (strip_fences content) = false.
Proof.
  unfold strip_fences, str_replace. eapply remove_fence_clean. reflexivity.
Qed.

(* ================================================================== *)
(** * generate_study_plan *)
(* ================================================================== *)

(** C1, as stated, fails: on a response that holds an empty week list
    [generate_study_plan] returns a plan whose ['weeks'] is empty. *)
Lemma generate_study_plan_empty_weeks :
  exists plan,
    fst (generate_study_plan (sample_env (Return empty_weeks_response) found)
           "Machine Learning" "Beginner" "Intermediate" 10 empty_world)
    = Return plan
    /\ ~ nonempty_weeks plan.
Proof.
  exists (VDict [(AStr "weeks", VList [])]). split; [reflexivity|].
  intros (d & w & ws & Hd & Hget). inversion Hd; subst. discriminate.
Qed.

(** C1, amended: [generate_study_plan] calls the model once, with the
    four inputs and the week count 4, and then either raises (the
    call raised, or evaluating the response raised) or returns exactly
    the value that the response, with every fence marker removed,
    evaluates to. The value is not checked in any way. *)
Theorem generate_study_plan_unvalidated (E : env) (i : inputs) (w : world) :
  let run := generate_study_plan E (subject i) (current_level i)
               (target_level i) (hours_per_week i) w in
  let out := chain_invoke E (history w) (request i) in
  snd run = log (EvInvoke (request i) out) w
  /\ ci_weeks (request i) = 4
  /\ match fst run with
     | Return plan =>
         exists content,
           out = Return content
           /\ occurs "```" (strip_fences content) = false
           /\ py_eval E (strip_fences content) = Return plan
     | Raise e =>
         out = Raise e
         \/ exists content,
              out = Return content
              /\ py_eval E (strip_fences content) = Raise e
     end.
Proof.
  intros run out. subst run. rewrite generate_study_plan_run. fold out. simpl.
  split; [reflexivity | split; [reflexivity|]].
  destruct out as [content|e]; [|now left].
  destruct (py_eval E (strip_fences content)) eqn:Heval;
    eauto using strip_fences_clean.
Qed.

(* ================================================================== *)
(** * find_youtube_video *)
(* ================================================================== *)

(** C4, as stated, fails: the values of the first result are passed
    on as they are, so a result whose id, title and thumbnail are
    [None] gives a record with nothing populated and the url
    [...watch?v=None]; and a result without thumbnails makes the
    function raise, which is neither a record nor [None]. *)
Lemma find_youtube_video_unpopulated :
  let r := fst (find_youtube_video unfilled_env "Loops Machine Learning"
                                   empty_world) in
  let r' := fst (find_youtube_video no_thumbnail_env "Loops Machine Learning"
                                    empty_world) in
  r = Return (VDict [(AStr "id", VNone);
                     (AStr "title", VNone);
                     (AStr "url", VStr "https://youtube.com/watch?v=None");
                     (AStr "thumbnail", VNone)])
  /\ ~ record_or_absent r
  /\ r' = Raise IndexError
  /\ ~ record_or_absent r'.
Proof.
  intros r r'. split; [reflexivity|]. split; [|split; [reflexivity|]].
  - intros [H|(v & H & id & title & url & thumbnail & Hv & Hid & _)].
    + discriminate H.
    + destruct Hid as (s & Hs & _). subst v id.
      vm_compute in H. discriminate H.
  - intros [H|(v & H & _)]; discriminate H.
Qed.

(** C4, amended: [find_youtube_video] makes one search, for one
    result, and looks at the first result only. It raises what the
    search raises and returns [None] when the search found nothing.
    When the first result has an id, a title and a first thumbnail, it
    returns the record with exactly the fields id, title, url and
    thumbnail made of them, the url built from the id; the fields of
    the record are populated exactly when the id, the title and the
    thumbnail of the result are. Otherwise it raises what the first
    failing lookup raises. *)
Theorem find_youtube_video_first_result (E : env) (query : string) (w : world) :
  let answer := youtube_search E (history w) query 1 in
  let r := fst (find_youtube_video E query w) in
  snd (find_youtube_video E query w) = log (EvSearch query 1 answer) w
  /\ (forall e, answer = Raise e -> r = Raise e)
  /\ (answer = Return [] -> r = Return VNone)
  /\ (forall video rest,
        answer = Return (video :: rest) ->
        (exists id title thumbnail,
            first_result video id title thumbnail
            /\ r = Return (video_record id title thumbnail)
            /\ (populated_video_ref (video_record id title thumbnail)
                <-> populated id /\ populated title /\ populated thumbnail))
        \/ (exists e, lookup_error video e /\ r = Raise e)).
Proof.
  intros answer r. subst r. rewrite find_youtube_video_run. fold answer.
  cbn [fst snd]. split; [reflexivity|].
  split; [intros e ->; reflexivity|].
  split; [intros ->; reflexivity|].
  intros video rest ->.
  unfold video_of_results, result_bind, lookup_error, first_result.
  destruct (py_getitem video (VStr "id")) as [id|e] eqn:Hid.
  2:{ right. exists e. split; [now left | reflexivity]. }
  destruct (py_getitem video (VStr "title")) as [title|e] eqn:Htitle.
  2:{ right. exists e. split; [|reflexivity].
      right. exists id. split; [reflexivity | now left]. }
  destruct (py_getitem video (VStr "thumbnails")) as [ths|e] eqn:Hths.
  2:{ right. exists e. split; [|reflexivity].
      right. exists id. split; [reflexivity|].
      right. exists title. split; [reflexivity | now left]. }
  destruct (py_getitem ths (VInt 0)) as [th|e] eqn:Hth.
  2:{ right. exists e. split; [|reflexivity].
      right. exists id. split; [reflexivity|].
      right. exists title. split; [reflexivity|].
      right. exists ths. split; [reflexivity | exact Hth]. }
  left. exists id, title, th. split; [eauto|]. split; [reflexivity|].
  unfold populated_video_ref, video_record. split.
  - intros (id' & title' & url' & th' & Heq & Hi & Ht & _ & Hth').
    inversion Heq; subst. auto.
  - intros (Hi & Ht & Hth'). do 4 eexists. split; [reflexivity|].
    repeat split; auto. eexists. split; [reflexivity | discriminate].
Qed.

Lemma find_youtube_video_first_result_witness :
  let query := "Loops Machine Learning"%string in
  youtube_search working_env (history empty_world) query 1
  = Return [sample_video query]
  /\ fst (find_youtube_video working_env query empty_world)
     = Return (video_record (VStr "dQw4w9WgXcQ") (VStr query)
                 (VStr "https://i.ytimg.com/vi/dQw4w9WgXcQ/hq720.jpg"))
  /\ populated_video_ref
       (video_record (VStr "dQw4w9WgXcQ") (VStr query)
          (VStr "https://i.ytimg.com/vi/dQw4w9WgXcQ/hq720.jpg")).
Proof.
  intros query.
  assert (Hanswer : youtube_search working_env (history empty_world) query 1
                    = Return [sample_video query]) by reflexivity.
  destruct (find_youtube_video_first_result working_env query empty_world)
    as (_ & _ & _ & Hfirst).
  destruct (Hfirst (sample_video query) [] Hanswer)
    as [(id & title & th & (ths & Hid & Htitle & Hths & Hth) & Hr & Hpop)
       |(e & _ & Hr)];
    [|vm_compute in Hr; discriminate Hr].
  vm_compute in Hid, Htitle, Hths.
  inversion Hid; inversion Htitle; inversion Hths; subst id title ths.
  vm_compute in Hth. inversion Hth; subst th.
  split; [exact Hanswer|]. split; [exact Hr|].
  apply Hpop. repeat split; eexists; (split; [reflexivity | discriminate]).
Defined.

(* ================================================================== *)
(** * main: the generate button *)
(* ================================================================== *)

(** C2: when the search of any topic makes [find_youtube_video] raise,
    the handler takes the error path: the collection is as before, no
    insert was attempted, the last thing done is the error message,
    and the session is untouched. *)
Theorem lookup_failure_discards_plan (E : env) (i : inputs) (ss : session_state)
  (w : world) (added : list event) (ev : event) :
  history (snd (on_generate E i ss w)) = history w ++ added ->
  In ev added ->
  lookup_raises ev ->
  plans (snd (on_generate E i ss w)) = plans w
  /\ Forall (fun ev' => ~ is_insert ev') added
  /\ (exists e, last added EvSuccess = EvError e)
  /\ fst (on_generate E i ss w) = ss.
Proof.
  unfold on_generate.
  destruct (create_plan E i w) as [[final|e] w1] eqn:Hrun;
    apply create_plan_run in Hrun;
    destruct Hrun as (searches & tail & Hh & Hss & Hr);
    simpl; rewrite Hh, <- app_assoc; intros Hadded Hin Hraises;
    apply app_inv_head in Hadded; subst added.
  - destruct Hr as (content & plan & doc & id & stored & _ & _ & _ & Hok & -> & _).
    exfalso. simpl in Hin. destruct Hin as [<-|Hin]; [exact Hraises|].
    rewrite <- app_assoc in Hin.
    apply in_app_or in Hin. destruct Hin as [Hin|Hin].
    + rewrite Forall_forall in Hok. exact (Hok _ Hin Hraises).
    + simpl in Hin. destruct Hin as [<-|[<-|[]]]; exact Hraises.
  - destruct Hr as (Hp & Htail).
    assert (tail = []) as ->.
    { destruct Htail as [->|(Hok & doc & ->)]; [reflexivity|]. exfalso.
      simpl in Hin. destruct Hin as [<-|Hin]; [exact Hraises|].
      rewrite <- app_assoc in Hin.
      apply in_app_or in Hin. destruct Hin as [Hin|Hin].
      - rewrite Forall_forall in Hok. exact (Hok _ Hin Hraises).
      - simpl in Hin. destruct Hin as [<-|[<-|[]]]; exact Hraises. }
    rewrite app_nil_r. repeat split; auto.
    + simpl. constructor; [simpl; tauto|].
      apply Forall_app. split; [now apply search_not_insert|].
      constructor; [simpl; tauto | constructor].
    + exists e.
      change (EvInvoke (request i) (chain_invoke E (history w) (request i))
                :: searches ++ [EvError e])
        with ((EvInvoke (request i) (chain_invoke E (history w) (request i))
                 :: searches) ++ [EvError e]).
      apply last_last.
Qed.

Lemma lookup_failure_discards_plan_witness :
  let run := on_generate failing_search_env ml_inputs session_with_plan empty_world in
  let ev := EvSearch "Functions Machine Learning" 1
              (search_down "Functions Machine Learning") in
  In ev (history (snd run)) /\ lookup_raises ev
  /\ plans (snd run) = [] /\ fst run = session_with_plan.
Proof.
  intros run ev.
  assert (Hin : In ev (history (snd run))).
  { vm_compute. right. right. left. reflexivity. }
  assert (Hraises : lookup_raises ev) by exact I.
  destruct (@lookup_failure_discards_plan failing_search_env ml_inputs
              session_with_plan empty_world (history (snd run)) ev
              eq_refl Hin Hraises) as (Hp & _ & _ & Hs).
  repeat split; assumption.
Defined.

(** C5: with subject "Machine Learning", levels "Beginner" and
    "Intermediate" and 10 hours, the model is invoked once, with these
    four values and the week count 4; and when the plan is created,
    the searches made are, in order, one per topic of the plan the
    model returned, each for the topic's name, a space and
    "Machine Learning". *)
Theorem scenario_machine_learning (E : env) (ss : session_state) (w : world) :
  exists added,
    history (snd (on_generate E ml_inputs ss w)) = history w ++ added
    /\ invocations added =
         [{| ci_subject := "Machine Learning";
             ci_current_level := "Beginner";
             ci_target_level := "Intermediate";
             ci_hours_per_week := 10;
             ci_weeks := 4 |}]
    /\ (In EvSuccess added ->
        exists content plan,
          chain_invoke E (history w) (request ml_inputs) = Return content
          /\ py_eval E (strip_fences content) = Return plan
          /\ search_queries added =
               map (fun topic =>
                      (py_str (topic_name topic) ++ " Machine Learning")%string)
                   (all_topics plan)).
Proof.
  unfold on_generate.
  destruct (create_plan E ml_inputs w) as [[final|e] w1] eqn:Hrun;
    apply create_plan_run in Hrun;
    destruct Hrun as (searches & tail & Hh & Hss & Hr);
    [exists (EvInvoke (request ml_inputs)
               (chain_invoke E (history w) (request ml_inputs))
               :: searches ++ tail ++ [EvSuccess])
    |exists (EvInvoke (request ml_inputs)
               (chain_invoke E (history w) (request ml_inputs))
               :: searches ++ tail ++ [EvError e])];
    (split; [simpl; rewrite Hh, <- app_assoc; simpl;
             now rewrite <- app_assoc|]).
  - destruct Hr as (content & plan & doc & id & stored & Hc & Hev & Hq & _ & -> & _).
    split.
    + simpl. rewrite !invocations_app, (invocations_searches Hss). reflexivity.
    + intros _. exists content, plan. repeat split; auto.
      rewrite search_queries_run; [exact Hq | simpl; tauto |].
      repeat constructor; simpl; tauto.
  - destruct Hr as (_ & Htail). split.
    + simpl. rewrite !invocations_app, (invocations_searches Hss).
      destruct Htail as [->|(_ & doc & ->)]; reflexivity.
    + intros Hin. exfalso. simpl in Hin. destruct Hin as [Hin|Hin]; [discriminate|].
      apply in_app_or in Hin.
      destruct Hin as [Hin|Hin].
      * rewrite Forall_forall in Hss. exact (Hss _ Hin).
      * apply in_app_or in Hin. destruct Hin as [Hin|[Hin|[]]]; [|discriminate].
        destruct Htail as [->|(_ & doc & ->)]; [exact Hin|].
        destruct Hin as [Hin|[]]. discriminate.
Qed.

Lemma scenario_machine_learning_witness :
  let run := on_generate working_env ml_inputs fresh_session empty_world in
  In EvSuccess (history (snd run))
  /\ search_queries (history (snd run))
     = ["Loops Machine Learning"; "Functions Machine Learning"]%string.
Proof.
  intros run.
  assert (Hin : In EvSuccess (history (snd run))).
  { vm_compute. do 4 right. left. reflexivity. }
  split; [exact Hin|].
  destruct (scenario_machine_learning working_env fresh_session empty_world)
    as (added & Hh & _ & Hs).
  change (history empty_world ++ added) with added in Hh.
  fold run in Hh. rewrite <- Hh in Hs.
  destruct (Hs Hin) as (content & plan & Hc & Hev & Hq).
  rewrite Hq. inversion Hc; subst content.
  vm_compute in Hev. inversion Hev; subst plan. reflexivity.
Defined.

(** C9, as stated, fails: a session that holds a plan still holds it
    after a generation attempt that raised. *)
Lemma failed_generation_keeps_old_plan :
  let run := main_input_section model_down_env ml_inputs true
               session_with_plan empty_world in
  (exists e, fst (create_plan model_down_env ml_inputs empty_world) = Raise e)
  /\ ss_plan (fst run) = Some old_plan
  /\ ss_plan (fst run) <> Some VNone
  /\ py_truthy old_plan = true.
Proof.
  repeat split; [eexists; reflexivity | discriminate].
Qed.

(** C9, amended: when generation, enrichment or the save raises, the
    handler leaves the session as it was before the attempt (the plan
    is absent if it was absent, and is the earlier plan otherwise),
    leaves the collection as it was and ends with the error message. *)
Theorem failed_generation_keeps_session (E : env) (i : inputs)
  (ss : session_state) (w : world) (e : exn) :
  fst (create_plan E i w) = Raise e ->
  let run := main_input_section E i true ss w in
  fst run = init_session ss
  /\ (ss_plan ss = None -> ss_plan (fst run) = Some VNone)
  /\ plans (snd run) = plans w
  /\ exists added,
       history (snd run) = history w ++ added
       /\ last added EvSuccess = EvError e.
Proof.
  unfold main_input_section, on_generate.
  destruct (create_plan E i w) as [[final|e'] w1] eqn:Hrun; simpl;
    [discriminate|].
  intros He. inversion He; subst e'.
  apply create_plan_run in Hrun.
  destruct Hrun as (searches & tail & Hh & _ & Hp & _).
  repeat split; auto.
  - intros ->. reflexivity.
  - exists ((EvInvoke (request i) (chain_invoke E (history w) (request i))
               :: searches ++ tail) ++ [EvError e]).
    split; [rewrite Hh; now rewrite <- app_assoc | apply last_last].
Qed.

Lemma failed_generation_keeps_session_witness :
  let run := main_input_section model_down_env ml_inputs true
               fresh_session empty_world in
  fst (create_plan model_down_env ml_inputs empty_world)
  = Raise (External "ResourceExhausted" "quota exceeded")
  /\ ss_plan (fst run) = Some VNone
  /\ plans (snd run) = [].
Proof.
  intros run.
  assert (H : fst (create_plan model_down_env ml_inputs empty_world)
              = Raise (External "ResourceExhausted" "quota exceeded"))
    by reflexivity.
  destruct (@failed_generation_keeps_session model_down_env ml_inputs
              fresh_session empty_world _ H) as (_ & Hnone & Hp & _).
  split; [exact H | split; [exact (Hnone eq_refl) | exact Hp]].
Defined.

(** C10: when the plan is created, the plan put in the session has a
    ['video'] key in every topic of every week, holding a video record
    or [None]; the [topic.get('video')] of the display finds it. *)
Theorem every_topic_has_video (E : env) (i : inputs) (ss : session_state)
  (w : world) (final : value) (w1 : world) :
  create_plan E i w = (Return final, w1) ->
  ss_plan (fst (on_generate E i ss w)) = Some final
  /\ Forall has_video (all_topics final)
  /\ Forall (fun topic =>
               exists v, py_get topic (AStr "video") = Return v
                         /\ (v = VNone \/ video_ref v))
            (all_topics final).
Proof.
  intros Hrun. unfold on_generate. rewrite Hrun. simpl.
  apply create_plan_run in Hrun.
  destruct Hrun as (searches & tail & _ & _ & Hr).
  destruct Hr as (content & plan & doc & id & stored & _ & _ & _ & _ & _ & _ & Hv).
  repeat split; auto.
  revert Hv. apply Forall_impl. intros topic (d & v & -> & Hget & Hok).
  exists v. simpl. now rewrite Hget.
Qed.

Lemma every_topic_has_video_witness :
  let run := create_plan working_env ml_inputs empty_world in
  (exists final, run = (Return final, snd run)
                 /\ List.length (all_topics final) = 2%nat
                 /\ Forall has_video (all_topics final)).
Proof.
  intros run.
  destruct run as [[final|e] w1] eqn:Hrun; [|vm_compute in Hrun; discriminate].
  exists final. split; [reflexivity|]. split.
  - vm_compute in Hrun. inversion Hrun. reflexivity.
  - exact (proj1 (proj2 (@every_topic_has_video working_env ml_inputs
                           fresh_session empty_world final w1 Hrun))).
Defined.

(* ================================================================== *)
(** * main: the progress figure *)
(* ================================================================== *)

Lemma sequence_some {A B} (f : A -> option B) (l : list A) (xs : list B) :
  Forall2 (fun a x => f a = Some x) l xs -> sequence (map f l) = Some xs.
Proof.
  induction 1 as [|a x l xs Hax _ IH]; simpl; [reflexivity|].
  now rewrite Hax, IH.
Qed.

Lemma sequence_none {A B} (f : A -> option B) (l : list A) :
  Exists (fun a => f a = None) l -> sequence (map f l) = None.
Proof.
  induction 1 as [a l Ha|a l _ IH]; simpl.
  - now rewrite Ha.
  - rewrite IH. now destruct (f a).
Qed.

Lemma sequence_length {A B} (f : A -> option B) (l : list A) (xs : list B) :
  sequence (map f l) = Some xs -> List.length xs = List.length l.
Proof.
  revert xs. induction l as [|a l IH]; simpl; intros xs H.
  - now inversion H.
  - destruct (f a); [|discriminate].
    destruct (sequence (map f l)) as [ys|]; [|discriminate].
    inversion H. simpl. now rewrite (IH ys).
Qed.

Lemma chars_length (s : string) : List.length (chars s) = String.length s.
Proof.
  unfold chars. rewrite length_map.
  induction s as [|c s IH]; simpl; congruence.
Qed.

(** [len] counts what iteration visits. *)
Lemma py_len_iter (v : value) :
  match py_len v with
  | Return n => exists l, py_iter v = Return l /\ n = Z.of_nat (List.length l)
  | Raise _ => exists e, py_iter v = Raise e
  end.
Proof.
  destruct v as [a|l|d]; simpl.
  - destruct a; try (eexists; reflexivity).
    eexists. split; [reflexivity|]. now rewrite chars_length.
  - eauto.
  - eexists. split; [reflexivity|]. now rewrite length_map.
Qed.

Lemma count_topics_cases (weeks : list value) :
  match count_topics weeks with
  | Return n =>
      exists tss,
        Forall2 (fun w ts => topics_of w = Some ts) weeks tss
        /\ n = Z.of_nat (List.length (List.concat tss))
  | Raise _ => Exists (fun w => topics_of w = None) weeks
  end.
Proof.
  induction weeks as [|w rest IH]; simpl.
  - exists []. split; [constructor | reflexivity].
  - unfold result_bind.
    destruct (py_getitem w (VStr "topics")) as [topics|e] eqn:Hget.
    2:{ left. unfold topics_of, iterable. now rewrite Hget. }
    pose proof (py_len_iter topics) as Hlen.
    destruct (py_len topics) as [n|e].
    + destruct Hlen as (l & Hl & ->).
      destruct (count_topics rest) as [m|e].
      * destruct IH as (tss & Hall & ->). exists (l :: tss). split.
        -- constructor; [|exact Hall]. unfold topics_of, iterable.
           now rewrite Hget, Hl.
        -- simpl. rewrite length_app. lia.
      * now right.
    + destruct Hlen as (e' & He'). left. unfold topics_of, iterable.
      now rewrite Hget, He'.
Qed.

Lemma count_checked_topics_cases (progress : progress_map) (topics : list value) :
  match count_checked_topics progress topics with
  | Return n =>
      exists names,
        sequence (map hashable_name topics) = Some names
        /\ n = Z.of_nat (List.length (filter (is_checked progress) names))
  | Raise _ => sequence (map hashable_name topics) = None
  end.
Proof.
  induction topics as [|t rest IH]; simpl.
  - exists []. split; reflexivity.
  - unfold result_bind, hashable_name at 1 3.
    destruct (py_getitem t (VStr "name")) as [[a|l|d]|e]; simpl; auto.
    destruct (count_checked_topics progress rest) as [m|e].
    + destruct IH as (names & -> & ->). exists (a :: names).
      split; [reflexivity|]. simpl. unfold is_checked at 2.
      destruct (find _ progress) as [[k [|]]|];
        cbn [snd Z_of_bool List.length]; lia.
    + now rewrite IH.
Qed.

Lemma count_checked_cases (progress : progress_map) (weeks : list value) :
  match count_checked progress weeks with
  | Return n =>
      exists namess,
        Forall2 (fun w ns => week_names w = Some ns) weeks namess
        /\ n = Z.of_nat (List.length (filter (is_checked progress)
                                             (List.concat namess)))
  | Raise _ => Exists (fun w => week_names w = None) weeks
  end.
Proof.
  induction weeks as [|w rest IH]; simpl.
  - exists []. split; [constructor | reflexivity].
  - unfold result_bind.
    destruct (py_getitem w (VStr "topics")) as [topics|e] eqn:Hget.
    2:{ left. unfold week_names, topics_of, iterable. now rewrite Hget. }
    destruct (py_iter topics) as [items|e] eqn:Hiter.
    2:{ left. unfold week_names, topics_of, iterable. now rewrite Hget, Hiter. }
    pose proof (count_checked_topics_cases progress items) as Hitems.
    assert (Hweek : week_names w = sequence (map hashable_name items)).
    { unfold week_names, topics_of, iterable. now rewrite Hget, Hiter. }
    destruct (count_checked_topics progress items) as [n|e].
    + destruct Hitems as (names & Hnames & ->).
      destruct (count_checked progress rest) as [m|e].
      * destruct IH as (namess & Hall & ->). exists (names :: namess). split.
        -- constructor; [congruence | exact Hall].
        -- simpl. rewrite filter_app, length_app. lia.
      * now right.
    + left. congruence.
Qed.

Lemma week_names_topics (w : value) (ns : list atom) :
  week_names w = Some ns ->
  exists ts, topics_of w = Some ts /\ List.length ns = List.length ts.
Proof.
  unfold week_names.
  destruct (topics_of w) as [ts|]; [|discriminate].
  intros H. exists ts. split; [reflexivity|]. now apply sequence_length in H.
Qed.

Lemma names_as_many_as_topics (weeks : list value) (tss : list (list value))
  (namess : list (list atom)) :
  Forall2 (fun w ts => topics_of w = Some ts) weeks tss ->
  Forall2 (fun w ns => week_names w = Some ns) weeks namess ->
  List.length (List.concat namess) = List.length (List.concat tss).
Proof.
  intros H. revert namess.
  induction H as [|w ts weeks tss Hw _ IH]; intros namess Hn;
    inversion Hn as [|? ns ? namess' Hns Hrest]; subst; [reflexivity|].
  simpl. rewrite !length_app, (IH _ Hrest).
  apply week_names_topics in Hns. destruct Hns as (ts' & Hts & ->).
  congruence.
Qed.

Lemma no_topic_none (weeks : list value) :
  Exists (fun w => topics_of w = None) weeks ->
  Exists (fun w => week_names w = None) weeks.
Proof.
  apply Exists_impl. intros w H. unfold week_names. now rewrite H.
Qed.

Lemma checked_ratio_div (progress : progress_map) (names : list atom) :
  names <> [] ->
  (inject_Z (Z.of_nat (List.length (filter (is_checked progress) names)))
   / inject_Z (Z.of_nat (List.length names))
   == checked_ratio progress names)%Q.
Proof.
  destruct names as [|a names]; [congruence|]. intros _.
  unfold checked_ratio. rewrite Qmake_Qdiv.
  replace (Z.pos (Pos.of_nat (List.length (a :: names))))
    with (Z.of_nat (List.length (a :: names))); [reflexivity|].
  simpl List.length. lia.
Qed.

Lemma checked_ratio_unchecked (progress : progress_map) (names : list atom) :
  Forall (fun n => is_checked progress n = false) names ->
  (checked_ratio progress names == 0)%Q.
Proof.
  intros H. destruct names as [|a names]; [reflexivity|].
  unfold checked_ratio.
  assert (filter (is_checked progress) (a :: names) = []) as ->; [|reflexivity].
  induction H as [|n l Hn _ IH]; simpl; [reflexivity|]. now rewrite Hn.
Qed.

(** C3: the progress figure is the number of topics, over all weeks,
    whose name is mapped to true, divided by the number of topics; it
    is 0 when no topic is checked and 0 when there is no topic (no
    division then). The figure exists exactly when every week has
    topics and every topic a hashable name. *)
Theorem progress_fraction_is_checked_over_total (plan : value)
  (progress : progress_map) :
  match progress_fraction plan progress with
  | Return q =>
      exists names,
        topic_names plan = Some names
        /\ (q == checked_ratio progress names)%Q
        /\ (Forall (fun n => is_checked progress n = false) names -> (q == 0)%Q)
        /\ (names = [] -> q = 0%Q)
  | Raise _ => topic_names plan = None
  end.
Proof.
  unfold progress_fraction, topic_names, iterable.
  unfold result_bind at 1.
  destruct (py_getitem plan (VStr "weeks")) as [weeks|e]; [|reflexivity].
  unfold result_bind at 1.
  destruct (py_iter weeks) as [items|e] eqn:Hiter; [|reflexivity].
  unfold result_bind at 1.
  pose proof (count_topics_cases items) as Htotal.
  destruct (count_topics items) as [total|e].
  2:{ assert (Hs : sequence (map week_names items) = None)
        by (apply sequence_none; now apply no_topic_none).
      now rewrite Hs. }
  destruct Htotal as (tss & Htss & ->).
  unfold result_bind at 1. rewrite Hiter.
  unfold result_bind at 1.
  pose proof (count_checked_cases progress items) as Hdone.
  destruct (count_checked progress items) as [completed|e].
  2:{ assert (Hs : sequence (map week_names items) = None)
        by (apply sequence_none; exact Hdone).
      now rewrite Hs. }
  destruct Hdone as (namess & Hnamess & ->).
  assert (Hs : sequence (map week_names items) = Some namess)
    by (now apply sequence_some).
  rewrite Hs.
  exists (List.concat namess). split; [reflexivity|].
  rewrite <- (names_as_many_as_topics Htss Hnamess).
  destruct (List.concat namess) as [|a names] eqn:Hnames.
  - repeat split; reflexivity.
  - assert (Hpos : (Z.of_nat (List.length (a :: names)) >? 0) = true)
      by (apply Z.gtb_lt; simpl List.length; lia).
    rewrite Hpos.
    assert (Hq := @checked_ratio_div progress (a :: names) ltac:(discriminate)).
    repeat split.
    + exact Hq.
    + intros Hnone. rewrite Hq. now apply checked_ratio_unchecked.
    + discriminate.
Qed.

Lemma progress_fraction_is_checked_over_total_witness :
  let plan := VDict [(AStr "weeks",
                      VList [VDict [(AStr "topics",
                                     VList [VDict [(AStr "name", VStr "Loops")];
                                            VDict [(AStr "name", VStr "Functions")]])]])] in
  let progress := [(AStr "Loops", true)] in
  exists q, progress_fraction plan progress = Return q /\ (q == 1 # 2)%Q.
Proof.
  intros plan progress.
  pose proof (progress_fraction_is_checked_over_total plan progress) as H.
  destruct (progress_fraction plan progress) as [q|e] eqn:Hq;
    [|vm_compute in Hq; discriminate].
  exists q. split; [reflexivity|].
  destruct H as (names & Hnames & Hratio & _).
  vm_compute in Hnames. inversion Hnames; subst names.
  rewrite Hratio. reflexivity.
Defined.

(* ================================================================== *)
(** * The document store: facts *)
(* ================================================================== *)

Lemma apart_cons (k c : string) (ns rest : list string) :
  apart (k :: ns) (c :: rest) -> k <> c \/ (k = c /\ apart ns rest).
Proof.
  unfold apart. simpl. destruct (String.eqb_spec k c) as [->|Hkc]; [|now left].
  rewrite String.eqb_refl. simpl. intros [H1 H2]. right. auto.
Qed.

Lemma apart_nil_l (p : list string) : ~ apart [] p.
Proof.
  intros [H _]. discriminate.
Qed.

Lemma apart_nil_r (p : list string) : ~ apart p [].
Proof.
  intros [_ H]. discriminate.
Qed.

(** The documents created for a missing tail hold nothing off the path. *)
Lemma get_field_nest_apart (rest : list string) (v : value) :
  forall ns, apart ns rest -> get_field ns (nest rest v) = None.
Proof.
  induction rest as [|c rest IH]; intros ns Hap.
  - now apply apart_nil_r in Hap.
  - destruct ns as [|k ns]; [now apply apart_nil_l in Hap|].
    simpl. unfold key_eqb.
    apply apart_cons in Hap. destruct Hap as [Hkc|[-> Hap]].
    + apply String.eqb_neq in Hkc. now rewrite Hkc.
    + rewrite String.eqb_refl. now apply IH.
Qed.

(** [$set] changes no field off its path. *)
Lemma set_path_frame (p : list string) (v : value) :
  forall x x' names,
    set_path p v x = Return x' ->
    apart names p ->
    get_field names x' = get_field names x.
Proof.
  induction p as [|c rest IH]; intros x x' names Hset Hap.
  - now apply apart_nil_r in Hap.
  - destruct names as [|k ns]; [now apply apart_nil_l in Hap|].
    apply apart_cons in Hap.
    destruct x as [a|l|d]; simpl in Hset; [discriminate| |].
    + (* an array: it has no named fields, before or after *)
      destruct (parse_index c) as [i|]; [|discriminate].
      destruct (i <? N.of_nat (List.length l))%N.
      * destruct (nth_error l (N.to_nat i)) as [child|]; [|discriminate].
        unfold result_bind in Hset.
        destruct (set_path rest v child); inversion Hset. reflexivity.
      * destruct (max_padding <? _)%N; inversion Hset. reflexivity.
    + destruct (dict_get (AStr c) d) as [child|] eqn:Hget.
      * unfold result_bind in Hset.
        destruct (set_path rest v child) as [child'|] eqn:Hchild;
          inversion Hset; subst x'. simpl.
        destruct Hap as [Hkc|[-> Hap]].
        -- now rewrite dict_get_set_other.
        -- rewrite dict_get_set_same, Hget. eapply IH; eauto.
      * inversion Hset; subst x'. simpl.
        destruct Hap as [Hkc|[-> Hap]].
        -- destruct (dict_get (AStr k) d) as [y|] eqn:Hk.
           ++ erewrite dict_get_app_old by eassumption. reflexivity.
           ++ rewrite dict_get_app_new by assumption.
              now rewrite key_eqb_str_neq.
        -- rewrite dict_get_app_new by assumption.
           rewrite key_eqb_refl, Hget.
           now apply get_field_nest_apart.
Qed.

Lemma doc_set_path_frame (p : list string) (v : value) (d d' : document)
  (names : list string) :
  doc_set_path p v d = Return d' ->
  apart names p ->
  get_field names (VDict d') = get_field names (VDict d).
Proof.
  unfold doc_set_path.
  destruct (existsb starts_with_dollar p); [discriminate|].
  destruct (set_path p v (VDict d)) as [x|] eqn:Hset; [|discriminate].
  intros H Hap. pose proof (set_path_frame _ _ Hset Hap) as Hframe.
  destruct x; inversion H; subst; auto.
Qed.

(** [update_first] rewrites at most one document, the first match. *)
Lemma update_first_cases (plan_id : atom) (f : document -> result document) :
  forall c c',
    update_first plan_id f c = Return c' ->
    List.length c' = List.length c
    /\ (exists n, forall m, m <> n -> nth_error c' m = nth_error c m)
    /\ forall m d d',
         nth_error c m = Some d -> nth_error c' m = Some d' ->
         d' = d \/ (matches_id plan_id d = true /\ f d = Return d').
Proof.
  induction c as [|d0 rest IH]; intros c' H; simpl in H.
  - inversion H; subst. repeat split; [exists O; auto|].
    intros [|m] d d' Hd; discriminate.
  - destruct (matches_id plan_id d0) eqn:Hm; unfold result_bind in H.
    + destruct (f d0) as [d0'|] eqn:Hf; inversion H; subst c'.
      split; [reflexivity|]. split.
      * exists O. intros [|m] Hne; [congruence | reflexivity].
      * intros [|m] d d' Hd Hd'; simpl in *.
        -- inversion Hd; inversion Hd'; subst. now right.
        -- left. congruence.
    + destruct (update_first plan_id f rest) as [rest'|] eqn:Hrest;
        inversion H; subst c'.
      destruct (IH _ eq_refl) as (Hlen & [n Hn] & Hdocs).
      split; [simpl; congruence|]. split.
      * exists (S n). intros [|m] Hne; [reflexivity|]. simpl. apply Hn. congruence.
      * intros [|m] d d' Hd Hd'; simpl in *.
        -- left. congruence.
        -- eapply Hdocs; eauto.
Qed.

Lemma split_dots_progress (topic : value) :
  split_dots (progress_path topic) = "progress"%string :: split_dots (py_str topic).
Proof.
  reflexivity.
Qed.

Lemma split_dots_nonempty (s : string) : split_dots s <> [].
Proof.
  destruct s as [|c s]; simpl; [discriminate|].
  destruct (Ascii.eqb c "."); [discriminate|].
  destruct (split_dots s); discriminate.
Qed.

(** The paths the server accepts are the components of the text. *)
Lemma check_update_path_comps (path : string) (comps : list string) :
  check_update_path path = Return comps -> comps = split_dots path.
Proof.
  unfold check_update_path.
  destruct (has_nul path); [discriminate|].
  destruct (existsb _ (split_dots path)); [discriminate|].
  destruct (1 <? _)%nat; [discriminate|].
  destruct (existsb is_array_filter (split_dots path)); [discriminate|].
  now inversion 1.
Qed.

Lemma update_one_set_cases (c : collection) (plan_id : atom) (path : string)
  (v : value) :
  snd (update_one_set c plan_id path v) = c
  \/ update_first plan_id (doc_set_path (split_dots path) v) c
     = Return (snd (update_one_set c plan_id path v)).
Proof.
  unfold update_one_set.
  destruct (check_update_path path) as [comps|] eqn:Hcheck; [|now left].
  apply check_update_path_comps in Hcheck. subst comps.
  destruct (update_first _ _ c); [now right | now left].
Qed.

Lemma update_progress_plans (E : env) (plan_id : atom) (topic : value)
  (completed : bool) (w : world) :
  plans (snd (update_progress E plan_id topic completed w)) = plans w
  \/ update_first plan_id
       (doc_set_path (split_dots (progress_path topic)) (VBool completed))
       (plans w)
     = Return (plans (snd (update_progress E plan_id topic completed w))).
Proof.
  unfold update_progress, driver_call.
  destruct (driver_fault E (history w)); [now left|].
  pose proof (update_one_set_cases (plans w) plan_id (progress_path topic)
                (VBool completed)) as H.
  destruct (update_one_set _ _ _ _) as [r c]. exact H.
Qed.

(* ================================================================== *)
(** * MongoDBClient.update_progress *)
(* ================================================================== *)

(** C7: [update_progress] changes at most one document, and only one
    that matches [plan_id]; in it, every field of the document or of
    an embedded document that is neither on the path
    [progress.<topic>] nor inside the field it names is as before. In
    particular every top-level field other than [progress] is. *)
Theorem update_progress_frame (E : env) (plan_id : atom) (topic : value)
  (completed : bool) (w : world) :
  let after := plans (snd (update_progress E plan_id topic completed w)) in
  let path := split_dots (progress_path topic) in
  List.length after = List.length (plans w)
  /\ (exists n, forall m, m <> n -> nth_error after m = nth_error (plans w) m)
  /\ forall m d d',
       nth_error (plans w) m = Some d -> nth_error after m = Some d' ->
       (matches_id plan_id d = false -> d' = d)
       /\ (forall names, apart names path ->
                         get_field names (VDict d') = get_field names (VDict d))
       /\ (forall key, key <> "progress"%string ->
                       dict_get (AStr key) d' = dict_get (AStr key) d).
Proof.
  intros after path.
  assert (Hfield : forall d d' : document,
             (forall names, apart names path ->
                            get_field names (VDict d') = get_field names (VDict d)) ->
             forall key, key <> "progress"%string ->
                         dict_get (AStr key) d' = dict_get (AStr key) d).
  { intros d d' Hap key Hkey.
    assert (Hone : apart [key] path).
    { subst path. rewrite split_dots_progress. unfold apart.
      cbn [is_prefix]. split.
      - apply String.eqb_neq in Hkey. now rewrite Hkey.
      - destruct (String.eqb "progress" key); [|reflexivity].
        pose proof (split_dots_nonempty (py_str topic)).
        destruct (split_dots (py_str topic)); [congruence | reflexivity]. }
    specialize (Hap [key] Hone). cbn [get_field] in Hap.
    destruct (dict_get (AStr key) d'), (dict_get (AStr key) d); congruence. }
  destruct (update_progress_plans E plan_id topic completed w) as [Hsame|Hupd];
    fold after in Hsame || fold after path in Hupd.
  - rewrite Hsame. split; [reflexivity|]. split; [exists O; reflexivity|].
    intros m d d' Hd Hd'. assert (d' = d) as -> by congruence. auto.
  - apply update_first_cases in Hupd. destruct Hupd as (Hlen & Hn & Hdocs).
    split; [exact Hlen|]. split; [exact Hn|].
    intros m d d' Hd Hd'.
    destruct (Hdocs m d d' Hd Hd') as [->|[Hmatch Hset]]; [auto|].
    assert (Hap : forall names, apart names path ->
                    get_field names (VDict d') = get_field names (VDict d))
      by (intros names Hnames; eapply doc_set_path_frame; eauto).
    repeat split; auto. congruence.
Qed.

(** ** Last write wins, for the updates the server accepts *)

Lemma get_path_nest (rest : list string) (v : value) :
  get_path rest (nest rest v) = Some v.
Proof.
  induction rest as [|c rest IH]; simpl; [reflexivity|].
  now rewrite key_eqb_refl.
Qed.

Lemma list_set_length (l : list value) (n : nat) (v : value) :
  List.length (list_set l n v) = List.length l.
Proof.
  revert n. induction l as [|x l IH]; intros [|n]; simpl; auto.
Qed.

Lemma nth_error_list_set (l : list value) (n : nat) (v : value) :
  (n < List.length l)%nat -> nth_error (list_set l n v) n = Some v.
Proof.
  revert n. induction l as [|x l IH]; intros [|n]; simpl; try lia; auto.
  intros H. apply IH. lia.
Qed.

(** After an accepted [$set], the path reads the value set. *)
Lemma set_path_get (p : list string) (v : value) :
  forall x x', set_path p v x = Return x' -> get_path p x' = Some v.
Proof.
  induction p as [|c rest IH]; intros x x' Hset; simpl in Hset.
  - now inversion Hset.
  - destruct x as [a|l|d]; [discriminate| |].
    + destruct (parse_index c) as [i|] eqn:Hi; [|discriminate].
      destruct (i <? N.of_nat (List.length l))%N eqn:Hlt.
      * destruct (nth_error l (N.to_nat i)) as [child|] eqn:Hnth; [|discriminate].
        unfold result_bind in Hset.
        destruct (set_path rest v child) as [child'|] eqn:Hchild;
          inversion Hset; subst x'. simpl.
        rewrite Hi, list_set_length, Hlt.
        rewrite nth_error_list_set; [now apply IH with (x := child)|].
        apply N.ltb_lt in Hlt. lia.
      * destruct (max_padding <? _)%N; inversion Hset; subst x'. simpl.
        apply N.ltb_ge in Hlt.
        rewrite Hi, !length_app, repeat_length. simpl List.length.
        assert (Hn : N.to_nat i
                     = (List.length l
                        + N.to_nat (i - N.of_nat (List.length l)))%nat) by lia.
        assert (Hin : (i <? N.of_nat (List.length l
                         + (N.to_nat (i - N.of_nat (List.length l)) + 1)))%N
                      = true) by (apply N.ltb_lt; lia).
        rewrite Hin, Hn.
        rewrite nth_error_app2 by lia.
        rewrite nth_error_app2 by (rewrite repeat_length; lia).
        rewrite repeat_length.
        replace (_ - _ - _)%nat with O by lia.
        simpl. apply get_path_nest.
    + destruct (dict_get (AStr c) d) as [child|] eqn:Hget.
      * unfold result_bind in Hset.
        destruct (set_path rest v child) as [child'|] eqn:Hchild;
          inversion Hset; subst x'. simpl.
        rewrite dict_get_set_same. now apply IH with (x := child).
      * inversion Hset; subst x'. simpl.
        rewrite dict_get_app_new by assumption.
        rewrite key_eqb_refl. apply get_path_nest.
Qed.

(** A path that reads a value accepts a new one. *)
Lemma set_path_again (p : list string) (v2 : value) :
  forall x v, get_path p x = Some v -> exists x2, set_path p v2 x = Return x2.
Proof.
  induction p as [|c rest IH]; intros x v Hget; simpl in *; [eauto|].
  destruct x as [a|l|d]; [discriminate| |].
  - destruct (parse_index c) as [i|]; [|discriminate].
    destruct (i <? N.of_nat (List.length l))%N; [|discriminate].
    destruct (nth_error l (N.to_nat i)) as [child|]; [|discriminate].
    destruct (IH _ _ Hget) as [x2 ->]. simpl. eauto.
  - destruct (dict_get (AStr c) d) as [child|]; [|discriminate].
    destruct (IH _ _ Hget) as [x2 ->]. simpl. eauto.
Qed.

Lemma set_path_doc (c : string) (rest : list string) (v : value) (x x' : value) :
  set_path (c :: rest) v x = Return x' ->
  (exists d, x = VDict d) -> exists d', x' = VDict d'.
Proof.
  intros Hset [d ->]. simpl in Hset.
  destruct (dict_get (AStr c) d) as [child|].
  - unfold result_bind in Hset.
    destruct (set_path rest v child); inversion Hset. eauto.
  - inversion Hset. eauto.
Qed.

Lemma doc_set_path_get (topic : value) (v : value) (d d' : document) :
  doc_set_path (split_dots (progress_path topic)) v d = Return d' ->
  get_path (split_dots (progress_path topic)) (VDict d') = Some v
  /\ doc_id d' = doc_id d.
Proof.
  intros Hset. split.
  - unfold doc_set_path in Hset.
    destruct (existsb starts_with_dollar _); [discriminate|].
    destruct (set_path _ v (VDict d)) as [x|] eqn:Hx; [|discriminate].
    pose proof Hx as Hget. apply set_path_get in Hget.
    rewrite split_dots_progress in Hx.
    apply set_path_doc in Hx; [|eauto]. destruct Hx as [dx ->].
    now inversion Hset; subst.
  - unfold doc_id.
    assert (Hap : apart ["_id"%string] (split_dots (progress_path topic))).
    { rewrite split_dots_progress. split; reflexivity. }
    pose proof Hset as Hf. eapply doc_set_path_frame in Hf; [|exact Hap].
    cbn [get_field] in Hf.
    destruct (dict_get (AStr "_id") d'), (dict_get (AStr "_id") d);
      congruence.
Qed.

Lemma doc_set_path_again (topic : value) (v v1 v2 : value) (d0 d : document) :
  doc_set_path (split_dots (progress_path topic)) v1 d0 = Return d ->
  get_path (split_dots (progress_path topic)) (VDict d) = Some v ->
  exists d2, doc_set_path (split_dots (progress_path topic)) v2 d = Return d2.
Proof.
  intros Hfirst Hget. unfold doc_set_path in *.
  destruct (existsb starts_with_dollar _); [discriminate|].
  eapply set_path_again with (v2 := v2) in Hget. destruct Hget as [x2 Hx2].
  rewrite Hx2. rewrite split_dots_progress in Hx2.
  apply set_path_doc in Hx2; [|eauto]. destruct Hx2 as [d2 ->]. eauto.
Qed.

Lemma update_first_find (plan_id : atom) (f : document -> result document)
  (d d' : document) :
  f d = Return d' ->
  doc_id d' = doc_id d ->
  forall c,
    find_one c plan_id = Some d ->
    exists c', update_first plan_id f c = Return c'
               /\ find_one c' plan_id = Some d'.
Proof.
  intros Hf Hid. induction c as [|d0 rest IH]; simpl; [discriminate|].
  destruct (matches_id plan_id d0) eqn:Hm.
  - intros H. inversion H; subst d0. rewrite Hf. simpl.
    eexists. split; [reflexivity|]. simpl.
    assert (Hm' : matches_id plan_id d' = true)
      by (unfold matches_id in *; now rewrite Hid).
    now rewrite Hm'.
  - intros H. destruct (IH H) as (c' & -> & Hfind). simpl.
    eexists. split; [reflexivity|]. simpl. now rewrite Hm.
Qed.

Lemma update_first_found (plan_id : atom) (f : document -> result document) :
  forall c c' d,
    update_first plan_id f c = Return c' ->
    find_one c plan_id = Some d ->
    exists d', f d = Return d'.
Proof.
  induction c as [|d0 rest IH]; simpl; intros c' d Hupd Hfind; [discriminate|].
  destruct (matches_id plan_id d0).
  - inversion Hfind; subst d0. unfold result_bind in Hupd.
    destruct (f d); [eauto | discriminate].
  - unfold result_bind in Hupd.
    destruct (update_first plan_id f rest) eqn:Hrest; [|discriminate].
    eapply IH; eauto.
Qed.

Lemma update_progress_returns (E : env) (plan_id : atom) (topic : value)
  (completed : bool) (w w' : world) :
  update_progress E plan_id topic completed w = (Return tt, w') ->
  exists comps,
    check_update_path (progress_path topic) = Return comps
    /\ update_first plan_id
         (doc_set_path (split_dots (progress_path topic)) (VBool completed))
         (plans w) = Return (plans w').
Proof.
  unfold update_progress, driver_call.
  destruct (driver_fault E (history w)); [discriminate|].
  unfold update_one_set.
  destruct (check_update_path (progress_path topic)) as [comps|] eqn:Hc;
    [|discriminate].
  pose proof Hc as Hcomps. apply check_update_path_comps in Hcomps. subst comps.
  destruct (update_first _ _ (plans w)) as [c'|]; [|discriminate].
  intros H. inversion H. eauto.
Qed.

Lemma update_first_none (plan_id : atom) (f : document -> result document) :
  forall c, find_one c plan_id = None -> update_first plan_id f c = Return c.
Proof.
  induction c as [|d0 rest IH]; simpl; [reflexivity|].
  destruct (matches_id plan_id d0); [discriminate|].
  intros H. now rewrite IH.
Qed.

(** The document for [plan_id] stays in the collection. *)
Lemma update_progress_keeps_document (E : env) (plan_id : atom) (topic : value)
  (completed : bool) (w : world) (d : document) :
  find_one (plans w) plan_id = Some d ->
  exists d1,
    find_one (plans (snd (update_progress E plan_id topic completed w))) plan_id
    = Some d1.
Proof.
  intros Hfind.
  destruct (update_progress_plans E plan_id topic completed w) as [->|Hupd];
    [eauto|].
  destruct (@update_first_found plan_id _ _ _ _ Hupd Hfind) as [d1 Hd1].
  destruct (@doc_set_path_get _ _ _ _ Hd1) as [_ Hid1].
  destruct (@update_first_find plan_id _ _ _ Hd1 Hid1 _ Hfind)
    as (c1 & Hc1 & Hfind1).
  rewrite Hupd in Hc1. inversion Hc1; subst c1. eauto.
Qed.

(** A call that returns has written its value at the path. *)
Lemma update_progress_written (E : env) (plan_id : atom) (topic : value)
  (completed : bool) (w w' : world) (d : document) :
  find_one (plans w) plan_id = Some d ->
  update_progress E plan_id topic completed w = (Return tt, w') ->
  exists d',
    find_one (plans w') plan_id = Some d'
    /\ get_path (split_dots (progress_path topic)) (VDict d')
       = Some (VBool completed).
Proof.
  intros Hfind Hrun.
  apply update_progress_returns in Hrun. destruct Hrun as (comps & _ & Hupd).
  destruct (@update_first_found plan_id _ _ _ _ Hupd Hfind) as [d1 Hd1].
  destruct (@doc_set_path_get _ _ _ _ Hd1) as [Hget1 Hid1].
  destruct (@update_first_find plan_id _ _ _ Hd1 Hid1 _ Hfind)
    as (c1 & Hc1 & Hfind1).
  rewrite Hupd in Hc1. inversion Hc1; subst c1. eauto.
Qed.

Lemma update_progress_raise (E : env) (plan_id : atom) (topic : value)
  (completed : bool) (w : world) (e : exn) :
  fst (update_progress E plan_id topic completed w) = Raise e ->
  plans (snd (update_progress E plan_id topic completed w)) = plans w.
Proof.
  unfold update_progress, driver_call.
  destruct (driver_fault E (history w)); [reflexivity|].
  unfold update_one_set.
  destruct (check_update_path (progress_path topic)); [|reflexivity].
  destruct (update_first _ _ (plans w)); [discriminate | reflexivity].
Qed.

(** C6, as stated, fails: a call the server refuses stores nothing (a
    topic name ending with a dot makes a path with an empty
    component), and neither does a call that cannot reach the server. *)
Lemma update_progress_refused_not_stored :
  let id := AObjectId "000000000000000000000007" in
  let dotted := VStr "Intro to A.I." in
  let first := update_progress working_env id dotted true world_with_plan in
  let second := update_progress working_env id dotted false (snd first) in
  let first' := update_progress store_down_env id (VStr "Loops") true
                  world_with_plan in
  let second' := update_progress store_down_env id (VStr "Loops") false
                   (snd first') in
  find_one (plans world_with_plan) id = Some stored_plan
  /\ (fst first = Raise WriteError
      /\ fst second = Raise WriteError
      /\ find_one (plans (snd second)) id = Some stored_plan
      /\ get_path (split_dots (progress_path dotted)) (VDict stored_plan)
         <> Some (VBool false))
  /\ (find_one (plans (snd second')) id = Some stored_plan
      /\ get_path (split_dots (progress_path (VStr "Loops"))) (VDict stored_plan)
         <> Some (VBool false)).
Proof.
  repeat split; try reflexivity; discriminate.
Qed.

(** C6, amended: with a document for [plan_id] in the collection,
    after two calls of [update_progress] on the same topic the value
    stored at [progress.<topic>] is the boolean of the second call
    whenever that call returns. It returns whenever the first one did
    and the driver still reaches the server; a call that raises
    leaves the collection as it was. *)
Theorem update_progress_last_write_wins (E : env) (plan_id : atom)
  (topic : value) (first second : bool) (w : world) (d : document) :
  find_one (plans w) plan_id = Some d ->
  let run1 := update_progress E plan_id topic first w in
  let run2 := update_progress E plan_id topic second (snd run1) in
  (fst run2 = Return tt ->
   exists d2,
     find_one (plans (snd run2)) plan_id = Some d2
     /\ get_path (split_dots (progress_path topic)) (VDict d2)
        = Some (VBool second))
  /\ (fst run1 = Return tt ->
      driver_fault E (history (snd run1)) = None ->
      fst run2 = Return tt)
  /\ (forall e, fst run2 = Raise e -> plans (snd run2) = plans (snd run1)).
Proof.
  intros Hfind run1 run2. split; [|split].
  - intros Hret.
    destruct (@update_progress_keeps_document E plan_id topic first w d Hfind)
      as [d1 Hfind1].
    fold run1 in Hfind1.
    apply (@update_progress_written E plan_id topic second (snd run1)
             (snd run2) d1 Hfind1).
    subst run2. destruct (update_progress E plan_id topic second (snd run1)).
    simpl in *. now subst.
  - intros Hret Hup.
    assert (Hrun1 : update_progress E plan_id topic first w
                    = (Return tt, snd run1)).
    { subst run1. destruct (update_progress E plan_id topic first w).
      simpl in *. now subst. }
    apply update_progress_returns in Hrun1.
    destruct Hrun1 as (comps & Hcheck & Hupd).
    destruct (@update_first_found plan_id _ _ _ _ Hupd Hfind) as [d1 Hd1].
    destruct (@doc_set_path_get _ _ _ _ Hd1) as [Hget1 Hid1].
    destruct (@update_first_find plan_id _ _ _ Hd1 Hid1 _ Hfind)
      as (c1 & Hc1 & Hfind1).
    rewrite Hupd in Hc1. inversion Hc1; subst c1.
    destruct (@doc_set_path_again topic _ _ (VBool second) _ _ Hd1 Hget1)
      as [d2 Hd2].
    destruct (@doc_set_path_get _ _ _ _ Hd2) as [_ Hid2].
    destruct (@update_first_find plan_id _ _ _ Hd2 Hid2 _ Hfind1)
      as (c2 & Hc2 & _).
    subst run2. unfold update_progress, driver_call. rewrite Hup.
    unfold update_one_set. rewrite Hcheck.
    apply check_update_path_comps in Hcheck. subst comps.
    now rewrite Hc2.
  - intros e. apply update_progress_raise.
Qed.

Lemma update_progress_last_write_wins_witness :
  let id := AObjectId "000000000000000000000007" in
  let run1 := update_progress working_env id (VStr "Loops") true world_with_plan in
  let run2 := update_progress working_env id (VStr "Loops") false (snd run1) in
  find_one (plans world_with_plan) id = Some stored_plan
  /\ fst run2 = Return tt
  /\ exists d2,
       find_one (plans (snd run2)) id = Some d2
       /\ get_path ["progress"; "Loops"]%string (VDict d2) = Some (VBool false).
Proof.
  intros id run1 run2.
  assert (Hfind : find_one (plans world_with_plan) id = Some stored_plan)
    by reflexivity.
  assert (Hret : fst run2 = Return tt) by reflexivity.
  split; [exact Hfind | split; [exact Hret|]].
  exact (proj1 (@update_progress_last_write_wins working_env id (VStr "Loops")
                  true false world_with_plan stored_plan Hfind) Hret).
Defined.

(** C8, as stated, fails: with no document for [plan_id] the call
    still raises when the server refuses the path (a topic name ending
    with a dot) and when the server cannot be reached. *)
Lemma update_progress_unknown_plan_raises :
  let id := AObjectId "00000000000000000000002a" in
  let refused := update_progress working_env id (VStr "Intro to A.I.") true
                   world_with_plan in
  let unreachable := update_progress store_down_env id (VStr "Loops") true
                       world_with_plan in
  find_one (plans world_with_plan) id = None
  /\ fst refused = Raise WriteError
  /\ fst unreachable
     = Raise (External "ServerSelectionTimeoutError" "no servers found").
Proof.
  repeat split; reflexivity.
Qed.

(** C8, amended: when no document matches [plan_id],
    [update_progress] leaves the collection as it was, and the missing
    document is no error: the call raises only what a lost connection
    or a path the server refuses raises for any [plan_id], and returns
    otherwise. *)
Theorem update_progress_unknown_plan (E : env) (plan_id : atom) (topic : value)
  (completed : bool) (w : world) :
  find_one (plans w) plan_id = None ->
  let run := update_progress E plan_id topic completed w in
  plans (snd run) = plans w
  /\ fst run = match driver_fault E (history w) with
               | Some e => Raise e
               | None =>
                   match check_update_path (progress_path topic) with
                   | Raise e => Raise e
                   | Return _ => Return tt
                   end
               end.
Proof.
  intros Hfind run. subst run. unfold update_progress, driver_call.
  destruct (driver_fault E (history w)); [split; reflexivity|].
  unfold update_one_set.
  destruct (check_update_path (progress_path topic)); [|split; reflexivity].
  rewrite update_first_none by exact Hfind. split; reflexivity.
Qed.

Lemma update_progress_unknown_plan_witness :
  let id := AObjectId "00000000000000000000002a" in
  let run := update_progress working_env id (VStr "Loops") true world_with_plan in
  find_one (plans world_with_plan) id = None
  /\ plans (snd run) = [stored_plan]
  /\ fst run = Return tt.
Proof.
  intros id run.
  assert (Hfind : find_one (plans world_with_plan) id = None) by reflexivity.
  destruct (@update_progress_unknown_plan working_env id (VStr "Loops") true
              world_with_plan Hfind) as [Hplans Hret].
  split; [exact Hfind | split; [exact Hplans | exact Hret]].
Defined.

(** ** Topic names and dotted paths *)

(** The topic name is written into the path as it is, so its dots
    count: a name with a dot inside is stored as nested documents. *)
Example update_progress_nested_name :
  let id := AObjectId "000000000000000000000007" in
  let run := update_progress working_env id (VStr "Intro to Node.js") true
               world_with_plan in
  fst run = Return tt
  /\ option_map (dict_get (AStr "progress")) (find_one (plans (snd run)) id)
     = Some (Some (VDict [(AStr "Intro to Node",
                           VDict [(AStr "js", VBool true)])])).
Proof.
  split; reflexivity.
Qed.

(* ================================================================== *)
(** * More on the fence markers (line 71) *)
(* ================================================================== *)

Lemma string_app_empty (s : string) : (s ++ EmptyString)%string = s.
Proof.
  induction s as [|c s IH]; simpl; congruence.
Qed.

Lemma prefix_other_char (a c : ascii) (p s : string) :
  a <> c -> String.prefix (String a p) (String c s) = false.
Proof.
  intros Hne. cbn [String.prefix]. destruct (ascii_dec a c); [contradiction|].
  reflexivity.
Qed.

(** Text without backticks passes through the removal of a marker
    that starts with one. *)
Lemma replace_from_no_tick (old new : string) (s t : string) :
  string_mem "`" s = false ->
  replace_from (String "`" old) new 0 (s ++ t)
  = (s ++ replace_from (String "`" old) new 0 t)%string.
Proof.
  induction s as [|c s IH]; intros Hs; [reflexivity|].
  unfold string_mem in Hs. cbn [list_ascii_of_string existsb] in Hs.
  apply orb_false_iff in Hs. destruct Hs as [Hc Hs].
  change ((String c s ++ t)%string) with (String c (s ++ t)).
  cbn [replace_from]. rewrite prefix_other_char.
  - cbn [append]. f_equal. apply IH. exact Hs.
  - intros <-. now rewrite Ascii.eqb_refl in Hc.
Qed.

Lemma replace_from_absent (old new : string) (s : string) :
  occurs old s = false -> replace_from old new 0 s = s.
Proof.
  induction s as [|c s IH]; intros H; [reflexivity|].
  cbn [occurs] in H. apply orb_false_iff in H. destruct H as [Hp Hs].
  cbn [replace_from]. rewrite Hp. f_equal. now apply IH.
Qed.

Lemma prefix_json_fence (s : string) :
  String.prefix "```json" s = true -> String.prefix "```" s = true.
Proof.
  intros H.
  destruct s as [|a s]; [discriminate H|].
  rewrite prefix_tick in H |- *. apply andb_prop in H as [-> H].
  destruct s as [|b s]; [discriminate H|].
  rewrite prefix_tick in H |- *. apply andb_prop in H as [-> H].
  destruct s as [|c s]; [discriminate H|].
  rewrite prefix_tick in H |- *. apply andb_prop in H as [-> H].
  now destruct s.
Qed.

Lemma occurs_json_fence (s : string) :
  occurs "```" s = false -> occurs "```json" s = false.
Proof.
  induction s as [|c s IH]; cbn [occurs]; intros H.
  - reflexivity.
  - apply orb_false_iff in H. destruct H as [Hp Hs].
    rewrite (IH Hs), orb_false_r.
    destruct (String.prefix "```json" (String c s)) eqn:Hj; [|reflexivity].
    apply prefix_json_fence in Hj. congruence.
Qed.

(** X1: a response that is a [```json] fence around a body without
    backticks is unwrapped to exactly that body. *)
Theorem strip_fences_unwraps (body : string) :
  string_mem "`" body = false ->
  strip_fences ("```json" ++ body ++ "```") = body.
Proof.
  intros Hbody. unfold strip_fences, str_replace.
  assert (H7 : replace_from "```json" EmptyString 0 ("```json" ++ body ++ "```")
               = (body ++ "```")%string).
  { change ("```json" ++ body ++ "```")%string
      with (String "`" (String "`" (String "`" (String "j" (String "s"
             (String "o" (String "n" (body ++ "```")))))))).
    cbn. replace (String.prefix EmptyString (body ++ "```")) with true
      by (now destruct body).
    rewrite replace_from_no_tick by exact Hbody. reflexivity. }
  rewrite H7. rewrite replace_from_no_tick by exact Hbody.
  change (replace_from "```" EmptyString 0 "```") with EmptyString.
  apply string_app_empty.
Qed.

Lemma strip_fences_unwraps_witness :
  string_mem "`" "{'weeks': []}" = false
  /\ strip_fences "```json{'weeks': []}```" = "{'weeks': []}"%string.
Proof.
  assert (H : string_mem "`" "{'weeks': []}" = false) by reflexivity.
  split; [exact H | exact (strip_fences_unwraps "{'weeks': []}" H)].
Defined.

(** X2: the text handed to [eval] holds no [```] marker, a text
    without one is handed over unchanged, and so removing the markers
    twice is the same as removing them once. *)
Theorem strip_fences_idempotent (content : string) :
  occurs "```" (strip_fences content) = false
  /\ (occurs "```" content = false -> strip_fences content = content)
  /\ strip_fences (strip_fences content) = strip_fences content.
Proof.
  assert (Hkeep : forall t, occurs "```" t = false -> strip_fences t = t).
  { intros t Ht. unfold strip_fences, str_replace.
    rewrite (replace_from_absent _ _ _ (occurs_json_fence _ Ht)).
    now apply replace_from_absent. }
  split; [apply strip_fences_clean | split; [apply Hkeep|]].
  apply Hkeep, strip_fences_clean.
Qed.

Lemma strip_fences_idempotent_witness :
  occurs "```" "{'weeks': []}" = false
  /\ strip_fences "{'weeks': []}" = "{'weeks': []}"%string.
Proof.
  assert (H : occurs "```" "{'weeks': []}" = false) by reflexivity.
  split; [exact H|].
  exact (proj1 (proj2 (strip_fences_idempotent "{'weeks': []}")) H).
Defined.

(* ================================================================== *)
(** * More on the progress figure (lines 214-217) *)
(* ================================================================== *)

Lemma filter_length_all (A : Type) (f : A -> bool) (l : list A) :
  List.length (filter f l) = List.length l <-> Forall (fun x => f x = true) l.
Proof.
  induction l as [|a l IH]; simpl.
  - split; [constructor | reflexivity].
  - pose proof (filter_length_le f l) as Hle.
    destruct (f a) eqn:Ha; simpl; split; intros H.
    + constructor; [exact Ha|]. apply IH. lia.
    + inversion H; subst. f_equal. now apply IH.
    + lia.
    + inversion H; subst. congruence.
Qed.

(** The two sums of lines 214-215, when both are computed, count the
    names of the plan and the checked ones among them. *)
Lemma progress_fraction_counts (plan : value) (progress : progress_map) (q : Q) :
  progress_fraction plan progress = Return q ->
  exists names,
    topic_names plan = Some names
    /\ q = if Z.of_nat (List.length names) >? 0
           then (inject_Z (Z.of_nat (List.length
                                       (filter (is_checked progress) names)))
                 / inject_Z (Z.of_nat (List.length names)))%Q
           else 0%Q.
Proof.
  unfold progress_fraction, topic_names, iterable.
  unfold result_bind at 1.
  destruct (py_getitem plan (VStr "weeks")) as [weeks|e]; [|discriminate].
  unfold result_bind at 1.
  destruct (py_iter weeks) as [items|e] eqn:Hiter; [|discriminate].
  unfold result_bind at 1.
  pose proof (count_topics_cases items) as Htotal.
  destruct (count_topics items) as [total|e]; [|discriminate].
  destruct Htotal as (tss & Htss & ->).
  unfold result_bind at 1. rewrite Hiter.
  unfold result_bind at 1.
  pose proof (count_checked_cases progress items) as Hdone.
  destruct (count_checked progress items) as [completed|e]; [|discriminate].
  destruct Hdone as (namess & Hnamess & ->).
  assert (Hs : sequence (map week_names items) = Some namess)
    by (now apply sequence_some).
  rewrite Hs. intros Hq. injection Hq as <-.
  exists (List.concat namess). split; [reflexivity|].
  now rewrite <- (names_as_many_as_topics Htss Hnamess).
Qed.

(** X3: whenever the progress figure is computed it lies between 0 and
    1, the range the progress bar accepts; and for a plan with at
    least one topic it is 1 exactly when every topic name is checked. *)
Theorem progress_fraction_bounds (plan : value) (progress : progress_map)
  (q : Q) :
  progress_fraction plan progress = Return q ->
  (0 <= q <= 1)%Q
  /\ forall names,
       topic_names plan = Some names -> names <> [] ->
       ((q == 1)%Q <-> Forall (fun n => is_checked progress n = true) names).
Proof.
  intros H. apply progress_fraction_counts in H.
  destruct H as (names & Hnames & ->).
  pose proof (filter_length_le (is_checked progress) names) as Hle.
  set (a := List.length (filter (is_checked progress) names)) in *.
  set (b := List.length names) in *.
  destruct (Z.of_nat b >? 0) eqn:Hpos.
  - apply Z.gtb_lt in Hpos.
    assert (Hb : (0 < inject_Z (Z.of_nat b))%Q)
      by (rewrite <- (Zlt_Qlt 0); exact Hpos).
    assert (Hb' : ~ (inject_Z (Z.of_nat b) == 0)%Q)
      by (intros Hz; rewrite Hz in Hb; now apply Qlt_irrefl in Hb).
    split; [split|].
    + apply Qle_shift_div_l; [exact Hb|]. rewrite Qmult_0_l.
      rewrite <- (Zle_Qle 0). lia.
    + apply Qle_shift_div_r; [exact Hb|]. rewrite Qmult_1_l.
      rewrite <- Zle_Qle. lia.
    + intros names' Hn' _. rewrite Hnames in Hn'. injection Hn' as <-.
      rewrite <- filter_length_all. fold a b. split; intros Hq.
      * assert (Heq : (inject_Z (Z.of_nat a) == inject_Z (Z.of_nat b))%Q).
        { rewrite <- (@Qmult_div_r (inject_Z (Z.of_nat a)) _ Hb'), Hq.
          apply Qmult_1_r. }
        unfold Qeq in Heq. cbn [Qnum Qden inject_Z] in Heq. lia.
      * rewrite Hq. unfold Qdiv. now apply Qmult_inv_r.
  - split; [split; discriminate|].
    intros names' Hn' Hne. rewrite Hnames in Hn'. injection Hn' as <-.
    exfalso. destruct names; [now apply Hne|].
    subst b. assert ((Z.of_nat (List.length (a0 :: names)) >? 0) = true)
      by (apply Z.gtb_lt; cbn [List.length]; lia).
    congruence.
Qed.

Lemma progress_fraction_bounds_witness :
  let plan := VDict [(AStr "weeks",
                      VList [VDict [(AStr "topics",
                                     VList [VDict [(AStr "name", VStr "Loops")];
                                            VDict [(AStr "name", VStr "Sets")]])]])] in
  let progress := [(AStr "Loops", true)] in
  progress_fraction plan progress = Return (1 # 2)%Q
  /\ (0 <= 1 # 2 <= 1)%Q.
Proof.
  intros plan progress.
  assert (H : progress_fraction plan progress = Return (1 # 2)%Q) by reflexivity.
  split; [exact H|]. exact (proj1 (progress_fraction_bounds plan progress H)).
Defined.

(* ================================================================== *)
(** * More on MongoDBClient (lines 21-31) *)
(* ================================================================== *)



Lemma dict_set_absent (k : atom) (v : value) (d : dict) :
  dict_get k d = None -> dict_set k v d = d ++ [(k, v)].
Proof.
  induction d as [|[k' v'] d IH]; [reflexivity|].
  cbn [dict_get dict_set]. destruct (key_eqb k k'); [discriminate|].
  intros H. cbn [app]. now rewrite IH.
Qed.




(** What a successful [insert_one] stores. *)
Lemma insert_one_returns (c : collection) (doc : value) (fresh : string)
  (id : value) (c' : collection) :
  insert_one c doc fresh = (Return id, c') ->
  exists d,
    doc = VDict d
    /\ id = match dict_get (AStr "_id") d with
            | Some v => v
            | None => VAtom (AObjectId fresh)
            end
    /\ c' = c ++ [(AStr "_id", id) :: dict_remove (AStr "_id") d]
    /\ existsb (fun d' => value_eqb (doc_id d') id) c = false.
Proof.
  unfold insert_one. destruct doc as [a|l|d]; try discriminate.
  set (id0 := match dict_get (AStr "_id") d with
              | Some v => v
              | None => VAtom (AObjectId fresh)
              end).
  destruct (encode_error _); [discriminate|].
  destruct (existsb (fun d' => value_eqb (doc_id d') id0) c) eqn:Hdup;
    destruct id0 eqn:Hid; try discriminate;
    intros H; inversion H; subst; exists d; auto.
Qed.

Lemma save_plan_returns (E : env) (plan : value) (id : value) (w w' : world) :
  save_plan E plan w = (Return id, w') ->
  exists d,
    plan = VDict d
    /\ plans w' = plans w ++ [(AStr "_id", id) :: dict_remove (AStr "_id") d]
    /\ existsb (fun d' => value_eqb (doc_id d') id) (plans w) = false.
Proof.
  unfold save_plan, driver_call.
  destruct (driver_fault E (history w)); [discriminate|].
  destruct (insert_one _ _ _) as [r c] eqn:Hins.
  intros H. inversion H; subst. cbn [plans].
  apply insert_one_returns in Hins. destruct Hins as (d & -> & _ & -> & Hnew).
  exists d. auto.
Qed.

Lemma doc_id_stored (id : value) (d : dict) :
  doc_id ((AStr "_id", id) :: d) = id.
Proof.
  unfold doc_id. cbn [dict_get]. now rewrite key_eqb_refl.
Qed.



(** ** No two documents with one id *)

Lemma distinct_ids_snoc (c : collection) (x : document) :
  distinct_ids c ->
  existsb (fun d' => value_eqb (doc_id d') (doc_id x)) c = false ->
  distinct_ids (c ++ [x]).
Proof.
  unfold distinct_ids. induction 1 as [|a l Ha Hl IH]; cbn [existsb app].
  - intros _. constructor; constructor.
  - intros H. apply orb_false_iff in H. destruct H as [Hax Hlx].
    constructor; [|now apply IH].
    apply Forall_app. split; [exact Ha|]. constructor; [exact Hax | constructor].
Qed.

Lemma distinct_ids_same_ids (c c' : collection) :
  map doc_id c' = map doc_id c -> distinct_ids c -> distinct_ids c'.
Proof.
  unfold distinct_ids. intros Hmap H. revert c' Hmap.
  induction H as [|a l Ha Hl IH]; intros [|a' l'] Hmap; try discriminate.
  - constructor.
  - cbn [map] in Hmap. injection Hmap as Hhead Htail.
    constructor; [|now apply IH].
    rewrite Hhead.
    apply (Forall_map doc_id (fun i => value_eqb (doc_id a) i = false)).
    rewrite Htail.
    now apply (Forall_map doc_id (fun i => value_eqb (doc_id a) i = false)).
Qed.

Lemma update_first_ids (plan_id : atom) (f : document -> result document) :
  (forall d d', f d = Return d' -> doc_id d' = doc_id d) ->
  forall c c',
    update_first plan_id f c = Return c' -> map doc_id c' = map doc_id c.
Proof.
  intros Hf. induction c as [|d rest IH]; intros c'; cbn [update_first].
  - intros H. now inversion H.
  - destruct (matches_id plan_id d).
    + unfold result_bind. destruct (f d) as [d'|] eqn:Hd; [|discriminate].
      intros H. inversion H; subst. cbn [map]. now rewrite (Hf _ _ Hd).
    + unfold result_bind.
      destruct (update_first plan_id f rest) as [rest'|]; [|discriminate].
      intros H. inversion H; subst. cbn [map]. now rewrite (IH rest').
Qed.

(** X5: no operation of [MongoDBClient] makes two documents share an
    ['_id']: if the ids of the collection are pairwise different, they
    are so after [save_plan], after [update_progress] and after
    [get_plan], whatever the arguments and the outcome; and
    [update_progress] leaves the ids and their order as they are. *)
Theorem store_keeps_ids_distinct (E : env) (w : world) :
  distinct_ids (plans w) ->
  (forall plan, distinct_ids (plans (snd (save_plan E plan w))))
  /\ (forall plan_id topic completed,
         let w' := snd (update_progress E plan_id topic completed w) in
         distinct_ids (plans w')
         /\ map doc_id (plans w') = map doc_id (plans w))
  /\ (forall plan_id, distinct_ids (plans (snd (get_plan E plan_id w)))).
Proof.
  intros Hd. split; [|split].
  - intros plan. destruct (save_plan E plan w) as [[id|e] w'] eqn:Hsave.
    + apply save_plan_returns in Hsave.
      destruct Hsave as (d & _ & Hplans & Hnew). cbn [snd]. rewrite Hplans.
      apply distinct_ids_snoc; [exact Hd|]. now rewrite doc_id_stored.
    + apply save_plan_run in Hsave. destruct Hsave as [_ Hplans].
      cbn [snd]. now rewrite Hplans.
  - intros plan_id topic completed w'.
    assert (Hids : map doc_id (plans w') = map doc_id (plans w)).
    { destruct (update_progress_plans E plan_id topic completed w) as [H|H].
      - subst w'. now rewrite H.
      - eapply update_first_ids; [|exact H].
        intros d d' Hset. now apply doc_set_path_get in Hset. }
    split; [|exact Hids]. now apply (distinct_ids_same_ids _ Hids).
  - intros plan_id. unfold get_plan.
    now destruct (driver_fault E (history w)).
Qed.

Lemma store_keeps_ids_distinct_witness :
  distinct_ids (plans world_with_plan)
  /\ distinct_ids
       (plans (snd (save_plan working_env (VDict [(AStr "weeks", VList [])])
                              world_with_plan))).
Proof.
  assert (H : distinct_ids (plans world_with_plan))
    by (repeat constructor).
  split; [exact H|].
  exact (proj1 (store_keeps_ids_distinct working_env world_with_plan H) _).
Defined.

(** ** A topic name that is one field name *)

Lemma split_dots_plain (s : string) :
  string_mem "." s = false -> split_dots s = [s].
Proof.
  induction s as [|c s IH]; [reflexivity|].
  unfold string_mem. cbn [list_ascii_of_string existsb].
  intros H. apply orb_false_iff in H. destruct H as [Hc Hs].
  cbn [split_dots]. rewrite Ascii.eqb_sym, Hc.
  unfold string_mem in IH. now rewrite (IH Hs).
Qed.

Lemma check_update_path_plain (s : string) :
  plain_name s ->
  check_update_path (progress_path (VStr s)) = Return ["progress"%string; s]
  /\ existsb starts_with_dollar ["progress"%string; s] = false.
Proof.
  intros (Hne & Hdot & Hnul & Hdollar).
  assert (Hcomps : split_dots (progress_path (VStr s)) = ["progress"%string; s]).
  { rewrite split_dots_progress. cbn [py_str]. now rewrite split_dots_plain. }
  split.
  - unfold check_update_path. rewrite Hcomps.
    assert (has_nul (progress_path (VStr s)) = false) as ->.
    { unfold has_nul, string_mem in *. exact Hnul. }
    destruct s as [|a s]; [contradiction|].
    cbn [starts_with_dollar] in Hdollar.
    cbn [existsb filter String.eqb List.length Nat.ltb Nat.leb orb].
    rewrite (Ascii.eqb_sym "$" a), Hdollar.
    change (Ascii.eqb "$" "p") with false. cbn [List.length].
    assert (is_array_filter (String a s) = false) as ->.
    { unfold is_array_filter. destruct s; [reflexivity|]. now rewrite Hdollar. }
    reflexivity.
  - cbn [existsb starts_with_dollar]. rewrite Hdollar. reflexivity.
Qed.

Lemma set_path_field (s : string) (v : value) (pr : dict) :
  set_path [s] v (VDict pr) = Return (VDict (dict_set (AStr s) v pr)).
Proof.
  cbn [set_path]. destruct (dict_get (AStr s) pr) eqn:Hget.
  - reflexivity.
  - cbn [nest]. now rewrite dict_set_absent.
Qed.

Lemma update_progress_field (E : env) (plan_id : atom) (s : string)
  (completed : bool) (w : world) (d : document) (pr : dict) :
  plain_name s ->
  driver_fault E (history w) = None ->
  find_one (plans w) plan_id = Some d ->
  dict_get (AStr "progress") d = Some (VDict pr) ->
  exists w',
    update_progress E plan_id (VStr s) completed w = (Return tt, w')
    /\ find_one (plans w') plan_id
       = Some (dict_set (AStr "progress")
                        (VDict (dict_set (AStr s) (VBool completed) pr)) d).
Proof.
  intros Hplain Hup Hfind Hpr.
  destruct (check_update_path_plain Hplain) as [Hcheck Hdollar].
  set (d' := dict_set (AStr "progress")
                      (VDict (dict_set (AStr s) (VBool completed) pr)) d).
  assert (Hset : doc_set_path ["progress"%string; s] (VBool completed) d
                 = Return d').
  { unfold doc_set_path. rewrite Hdollar.
    pose proof (set_path_field s (VBool completed) pr) as Hfield.
    cbn [set_path] in Hfield |- *. rewrite Hpr, Hfield. reflexivity. }
  assert (Hid : doc_id d' = doc_id d).
  { unfold doc_id, d'. rewrite dict_get_set_other; [reflexivity | discriminate]. }
  destruct (update_first_find plan_id _ Hset Hid _ Hfind) as (c' & Hc' & Hfound).
  unfold update_progress, driver_call. rewrite Hup.
  unfold update_one_set. rewrite Hcheck, Hc'.
  eexists. split; [reflexivity | exact Hfound].
Qed.

(** X6: for a topic name that is one field name the server accepts
    (not empty, no dot, no NUL, no leading [$]), a document for
    [plan_id] whose ['progress'] is a mapping and a collection that
    can be reached, [update_progress] returns, and the document found
    for [plan_id] afterwards, which is what [get_plan] then returns,
    is the one before with [progress[name] = completed] carried out
    on its mapping. *)
Theorem update_progress_plain_name (E : env) (plan_id : atom) (s : string)
  (completed : bool) (w : world) (d : document) (pr : dict) :
  plain_name s ->
  driver_fault E (history w) = None ->
  find_one (plans w) plan_id = Some d ->
  dict_get (AStr "progress") d = Some (VDict pr) ->
  let out := update_progress E plan_id (VStr s) completed w in
  let d' := dict_set (AStr "progress")
                     (VDict (dict_set (AStr s) (VBool completed) pr)) d in
  fst out = Return tt
  /\ find_one (plans (snd out)) plan_id = Some d'
  /\ (driver_fault E (history (snd out)) = None ->
      fst (get_plan E plan_id (snd out)) = Return (VDict d')).
Proof.
  intros Hplain Hup Hfind Hpr out d'. subst out.
  destruct (update_progress_field E plan_id completed w Hplain Hup Hfind Hpr)
    as (w' & -> & Hfound).
  cbn [fst snd]. split; [reflexivity | split; [exact Hfound|]].
  intros Hup'. unfold get_plan. now rewrite Hup', Hfound.
Qed.

Lemma update_progress_plain_name_witness :
  let id := AObjectId "000000000000000000000007" in
  let out := update_progress working_env id (VStr "Loops") true world_with_plan in
  fst out = Return tt
  /\ find_one (plans (snd out)) id
     = Some [(AStr "_id", VAtom id);
             (AStr "weeks", VList []);
             (AStr "subject", VStr "Machine Learning");
             (AStr "progress", VDict [(AStr "Loops", VBool true)])].
Proof.
  intros id.
  assert (Hplain : plain_name "Loops")
    by (repeat split; [discriminate | reflexivity..]).
  pose proof (@update_progress_plain_name working_env id "Loops" true
                world_with_plan stored_plan [] Hplain eq_refl eq_refl eq_refl)
    as (Hret & Hfound & _).
  split; [exact Hret | exact Hfound].
Defined.

(* ================================================================== *)
(** * The check boxes (lines 234-245) *)
(* ================================================================== *)

Lemma datetime_eqb_eq (d e : datetime) : datetime_eqb d e = true -> d = e.
Proof.
  destruct d, e. unfold datetime_eqb. cbn.
  rewrite !andb_true_iff, !N.eqb_eq.
  intros [[[[[[-> ->] ->] ->] ->] ->] ->]. reflexivity.
Qed.

Lemma key_eqb_norm (a b : atom) :
  key_eqb a b = true <-> key_norm a = key_norm b.
Proof.
  destruct a as [|x|x|x|x|x], b as [|y|y|y|y|y]; unfold key_eqb, key_norm;
    split; intros H; try discriminate H; try reflexivity;
    try (injection H as H);
    try (apply Z.eqb_eq in H); try (apply String.eqb_eq in H);
    try (apply datetime_eqb_eq in H); try (apply Bool.eqb_prop in H);
    subst;
    auto using Z.eqb_refl, String.eqb_refl, datetime_eqb_refl, Bool.eqb_reflx.
  destruct x, y; try reflexivity; discriminate H.
Qed.

Lemma key_eqb_trans (a k b : atom) :
  key_eqb a k = true -> key_eqb b a = key_eqb b k.
Proof.
  intros H. apply key_eqb_norm in H. apply Bool.eq_iff_eq_true.
  rewrite !key_eqb_norm. now rewrite H.
Qed.

Lemma progress_get_checked (progress : progress_map) (a : atom) :
  progress_get progress (VAtom a) = Return (is_checked progress a).
Proof. reflexivity. Qed.

Lemma is_checked_set_same (a : atom) (c : bool) (progress : progress_map) :
  is_checked (progress_set a c progress) a = c.
Proof.
  unfold is_checked. induction progress as [|[k b] rest IH]; cbn [progress_set].
  - cbn [find fst]. now rewrite key_eqb_refl.
  - destruct (key_eqb a k) eqn:Hk; cbn [find fst]; rewrite Hk; [reflexivity|].
    exact IH.
Qed.

Lemma is_checked_set_other (a b : atom) (c : bool) (progress : progress_map) :
  key_eqb b a = false ->
  is_checked (progress_set a c progress) b = is_checked progress b.
Proof.
  intros Hba. unfold is_checked.
  induction progress as [|[k v] rest IH]; cbn [progress_set].
  - cbn [find fst]. now rewrite Hba.
  - destruct (key_eqb a k) eqn:Hk; cbn [find fst].
    + rewrite <- (@key_eqb_trans a k b Hk), Hba. reflexivity.
    + destruct (key_eqb b k); [reflexivity | exact IH].
Qed.

Lemma stored_progress_set (a : atom) (c : bool) (progress : progress_map) :
  stored_progress (progress_set a c progress)
  = VDict (dict_set a (VBool c)
             (map (fun kv => (fst kv, VBool (snd kv))) progress)).
Proof.
  unfold stored_progress. f_equal.
  induction progress as [|[k v] rest IH]; [reflexivity|].
  cbn [progress_set map dict_set fst snd].
  destruct (key_eqb a k); [reflexivity|]. cbn [map fst snd]. now rewrite IH.
Qed.

Lemma hashable_name_getitem (topic : value) (a : atom) :
  hashable_name topic = Some a ->
  py_getitem topic (VStr "name") = Return (VAtom a).
Proof.
  unfold hashable_name.
  destruct (py_getitem topic (VStr "name")) as [[x|l|d]|e]; try discriminate.
  intros H. now inversion H.
Qed.

Lemma update_progress_history (E : env) (plan_id : atom) (topic : value)
  (completed : bool) (w w' : world) (r : result unit) :
  update_progress E plan_id topic completed w = (r, w') ->
  history w' = history w ++ [EvUpdateOne plan_id (progress_path topic)
                                         (VBool completed) r].
Proof.
  unfold update_progress, driver_call.
  destruct (driver_fault E (history w)).
  - intros H. inversion H; subst. reflexivity.
  - destruct (update_one_set _ _ _ _) as [r0 c].
    intros H. inversion H; subst. reflexivity.
Qed.

(** X7: the block of one check box, for a topic with a hashable name.
    When the box is in the state the session has for the name, nothing
    is written and nothing changes. Otherwise one update is requested,
    and its outcome is the outcome of the block; whether or not it
    raised, the session then has the state of the box for the name,
    and the state of every other name as before, so that the same
    block with the box unchanged requests nothing more: an update that
    raised is not made again. *)
Theorem on_checkbox_memory (E : env) (plan_id : atom) (topic : value)
  (a : atom) (checked : bool) (progress progress' : progress_map)
  (w w' : world) (r : result unit) :
  hashable_name topic = Some a ->
  on_checkbox E plan_id topic checked progress w = (progress', r, w') ->
  is_checked progress' a = checked
  /\ (forall b, key_eqb b a = false ->
                is_checked progress' b = is_checked progress b)
  /\ on_checkbox E plan_id topic checked progress' w' = (progress', Return tt, w')
  /\ (is_checked progress a = checked ->
      progress' = progress /\ r = Return tt /\ w' = w)
  /\ (is_checked progress a <> checked ->
      history w' = history w ++ [EvUpdateOne plan_id (progress_path (VAtom a))
                                             (VBool checked) r]
      /\ progress' = progress_set a checked progress).
Proof.
  intros Hname Hrun. apply hashable_name_getitem in Hname.
  assert (Hagain : forall p x,
             is_checked p a = checked ->
             on_checkbox E plan_id topic checked p x = (p, Return tt, x)).
  { intros p x Hp. unfold on_checkbox.
    rewrite Hname, progress_get_checked, Hp, Bool.eqb_reflx. reflexivity. }
  unfold on_checkbox in Hrun. rewrite Hname, progress_get_checked in Hrun.
  destruct (Bool.eqb checked (is_checked progress a)) eqn:Hsame.
  - apply Bool.eqb_prop in Hsame. symmetry in Hsame.
    inversion Hrun; subst progress' r w'.
    split; [exact Hsame|]. split; [reflexivity|].
    split; [now apply Hagain|]. split; [auto|].
    intros Hne. now contradiction Hne.
  - destruct (update_progress E plan_id (VAtom a) checked w) as [r0 w0] eqn:Hup.
    inversion Hrun; subst progress' r w'.
    split; [apply is_checked_set_same|].
    split; [intros b Hb; now apply is_checked_set_other|].
    split; [apply Hagain, is_checked_set_same|].
    split.
    + intros Heq. rewrite Heq, Bool.eqb_reflx in Hsame. discriminate.
    + intros _. split; [|reflexivity].
      exact (update_progress_history E plan_id (VAtom a) checked w Hup).
Qed.

Lemma on_checkbox_memory_witness :
  let topic := VDict [(AStr "name", VStr "Loops")] in
  let id := AObjectId "000000000000000000000007" in
  let out := on_checkbox store_down_env id topic true [] world_with_plan in
  hashable_name topic = Some (AStr "Loops")
  /\ is_checked (fst (fst out)) (AStr "Loops") = true
  /\ on_checkbox store_down_env id topic true (fst (fst out)) (snd out)
     = (fst (fst out), Return tt, snd out).
Proof.
  intros topic id out.
  assert (Hname : hashable_name topic = Some (AStr "Loops")) by reflexivity.
  assert (Hrun : on_checkbox store_down_env id topic true [] world_with_plan
                 = (fst (fst out), snd (fst out), snd out)) by reflexivity.
  destruct (@on_checkbox_memory store_down_env id topic (AStr "Loops") true []
              (fst (fst out)) world_with_plan (snd out) (snd (fst out))
              Hname Hrun) as (H1 & _ & H3 & _).
  split; [exact Hname | split; [exact H1 | exact H3]].
Defined.

(** X8: the stored mapping follows the session's. For a topic whose
    name is one field name the server accepts, a collection that can
    be reached and a document for [plan_id] whose ['progress'] has the
    items of the session's mapping, the block of the check box
    returns, and afterwards the document for [plan_id] has under
    ['progress'] the items of the session's mapping as the block left
    it, and every other field as before. *)
Theorem on_checkbox_mirrors_store (E : env) (plan_id : atom) (topic : value)
  (s : string) (checked : bool) (progress progress' : progress_map)
  (w w' : world) (r : result unit) (d : document) :
  plain_name s ->
  hashable_name topic = Some (AStr s) ->
  driver_fault E (history w) = None ->
  find_one (plans w) plan_id = Some d ->
  dict_get (AStr "progress") d = Some (stored_progress progress) ->
  on_checkbox E plan_id topic checked progress w = (progress', r, w') ->
  r = Return tt
  /\ exists d',
       find_one (plans w') plan_id = Some d'
       /\ dict_get (AStr "progress") d' = Some (stored_progress progress')
       /\ forall k, k <> "progress"%string ->
                    dict_get (AStr k) d' = dict_get (AStr k) d.
Proof.
  intros Hplain Hname Hup Hfind Hpr Hrun. apply hashable_name_getitem in Hname.
  unfold on_checkbox in Hrun. rewrite Hname, progress_get_checked in Hrun.
  destruct (Bool.eqb checked (is_checked progress (AStr s))).
  - inversion Hrun; subst progress' r w'. split; [reflexivity|].
    exists d. auto.
  - unfold stored_progress in Hpr.
    destruct (update_progress_field E plan_id checked w Hplain Hup Hfind Hpr)
      as (w1 & Hw1 & Hfound).
    rewrite Hw1 in Hrun. inversion Hrun; subst progress' r w'.
    split; [reflexivity|]. eexists. split; [exact Hfound|]. split.
    + rewrite dict_get_set_same, stored_progress_set. reflexivity.
    + intros k Hk. now apply dict_get_set_other.
Qed.

Lemma on_checkbox_mirrors_store_witness :
  let topic := VDict [(AStr "name", VStr "Loops")] in
  let id := AObjectId "000000000000000000000007" in
  let out := on_checkbox working_env id topic true [] world_with_plan in
  snd (fst out) = Return tt
  /\ exists d',
       find_one (plans (snd out)) id = Some d'
       /\ dict_get (AStr "progress") d' = Some (stored_progress (fst (fst out))).
Proof.
  intros topic id out.
  assert (Hplain : plain_name "Loops")
    by (repeat split; [discriminate | reflexivity..]).
  assert (Hrun : on_checkbox working_env id topic true [] world_with_plan
                 = (fst (fst out), snd (fst out), snd out)) by reflexivity.
  destruct (@on_checkbox_mirrors_store working_env id topic "Loops" true []
              (fst (fst out)) world_with_plan (snd out) (snd (fst out))
              stored_plan Hplain eq_refl eq_refl eq_refl eq_refl Hrun)
    as (Hr & d' & Hfound & Hprog & _).
  split; [exact Hr|]. exists d'. split; [exact Hfound | exact Hprog].
Defined.

(* ================================================================== *)
(** * More on the enrichment loops (lines 176-179) *)
(* ================================================================== *)

Lemma enriched_topics_app (s : string) (e1 e2 : list event)
  (a a' b b' : list value) :
  enriched_topics s e1 a a' -> enriched_topics s e2 b b' ->
  enriched_topics s (e1 ++ e2) (a ++ b) (a' ++ b').
Proof.
  induction 1; intros H2; cbn [app]; [exact H2|].
  constructor; auto.
Qed.

Lemma enriched_topics_dicts (s : string) (evs : list event) (ts ts' : list value) :
  enriched_topics s evs ts ts' ->
  Forall is_dict ts /\ List.length ts' = List.length ts.
Proof.
  induction 1 as [|ev t t' evs ts ts' (d & rs & v & -> & _) _ [IH1 IH2]].
  - split; [constructor | reflexivity].
  - split; [constructor; [now exists d | exact IH1]|].
    cbn [List.length]. now rewrite IH2.
Qed.

(** What a loop leaves under [key] when it has visited the items of
    the container found there. *)
Lemma items_rebuilt (d : dict) (key : string) (container : value)
  (items items' : list value) :
  py_iter container = Return items ->
  Forall is_dict items ->
  List.length items' = List.length items ->
  items_of (py_getitem (put_back (VDict d) key (rebuild container items'))
                       (VStr key)) = items'.
Proof.
  intros Hiter Hdicts Hlen.
  cbn [put_back py_getitem]. rewrite dict_get_set_same. cbn [items_of].
  destruct container as [a|l|dd]; cbn [rebuild].
  - assert (items = []) as ->.
    { destruct items as [|x items]; [reflexivity|]. exfalso.
      destruct a; try discriminate. cbn [py_iter] in Hiter.
      injection Hiter as Hiter. unfold chars in Hiter.
      destruct (list_ascii_of_string s); [discriminate|].
      cbn [map] in Hiter. injection Hiter as <- _.
      inversion Hdicts as [|? ? [? Hd] _]. discriminate Hd. }
    destruct items'; [|discriminate]. now rewrite Hiter.
  - reflexivity.
  - assert (items = []) as ->.
    { destruct items as [|x items]; [reflexivity|]. exfalso.
      cbn [py_iter] in Hiter. injection Hiter as Hiter.
      destruct dd; [discriminate|]. cbn [map] in Hiter.
      injection Hiter as <- _.
      inversion Hdicts as [|? ? [? Hd] _]. discriminate Hd. }
    destruct items'; [|discriminate]. now rewrite Hiter.
Qed.

Lemma same_but_put_back (d : dict) (key : string) (v : value) :
  same_but key (VDict d) (put_back (VDict d) key v).
Proof.
  exists d, (dict_set (AStr key) v d). repeat split.
  intros k Hk. now apply dict_get_set_other.
Qed.

Lemma enrich_topics_enriched (E : env) (s : string) (topics : list value) :
  forall w topics' w',
    enrich_topics E s topics w = (Return topics', w') ->
    exists evs, extends w w' evs /\ enriched_topics s evs topics topics'.
Proof.
  induction topics as [|topic rest IH]; intros w topics' w' H.
  - inversion H; subst. exists []. split; [apply extends_refl | constructor].
  - cbn [enrich_topics] in H. unfold bind at 1, lift at 1 in H.
    destruct (py_getitem topic (VStr "name")) as [name|e] eqn:Hname;
      [|discriminate].
    unfold bind at 1 in H. rewrite find_youtube_video_run in H.
    set (query := (py_str name ++ " " ++ s)%string) in *.
    destruct (youtube_search E (history w) query 1) as [results|e] eqn:Hsearch;
      [|discriminate].
    destruct (video_of_results results) as [video|e] eqn:Hvideo; [|discriminate].
    apply py_getitem_str in Hname. destruct Hname as (d & -> & Hd).
    unfold bind at 1, lift at 1 in H. cbn [py_setitem] in H.
    unfold bind at 1 in H.
    destruct (enrich_topics E s rest _) as [[rest'|e] w2] eqn:Hrest;
      [|discriminate].
    inversion H; subst topics' w'. clear H.
    apply IH in Hrest. destruct Hrest as (evs & Hext & Hrel).
    exists (EvSearch query 1 (Return results) :: evs). split.
    + exact (extends_trans (extends_log _ w) Hext).
    + constructor; [|exact Hrel].
      exists d, results, video. repeat split; auto.
      unfold topic_query, topic_name. cbn [py_getitem]. now rewrite Hd.
Qed.

Lemma enrich_week_enriched (E : env) (s : string) (week week' : value)
  (w w' : world) :
  enrich_week E s week w = (Return week', w') ->
  exists evs,
    extends w w' evs
    /\ enriched_topics s evs (week_topics week) (week_topics week')
    /\ same_but "topics" week week'.
Proof.
  unfold enrich_week. intros H. unfold bind at 1, lift at 1 in H.
  destruct (py_getitem week (VStr "topics")) as [topics|e] eqn:Hget;
    [|discriminate].
  unfold bind at 1, lift at 1 in H.
  destruct (py_iter topics) as [items|e] eqn:Hiter; [|discriminate].
  unfold bind at 1 in H.
  destruct (enrich_topics E s items w) as [[items'|e] w1] eqn:Hrun;
    [|discriminate].
  inversion H; subst week' w'. clear H.
  apply enrich_topics_enriched in Hrun. destruct Hrun as (evs & Hext & Hrel).
  pose proof Hget as Hweek. apply py_getitem_str in Hweek.
  destruct Hweek as (d & -> & Hd).
  destruct (enriched_topics_dicts Hrel) as [Hdicts Hlen].
  exists evs. split; [exact Hext|]. split; [|apply same_but_put_back].
  unfold week_topics at 2. rewrite (@items_rebuilt d "topics" topics items items' Hiter Hdicts Hlen).
  unfold week_topics, items_of. now rewrite Hget, Hiter.
Qed.

Lemma enrich_weeks_enriched (E : env) (s : string) (weeks : list value) :
  forall w weeks' w',
    enrich_weeks E s weeks w = (Return weeks', w') ->
    exists evs,
      extends w w' evs
      /\ enriched_topics s evs (flat_map week_topics weeks)
                         (flat_map week_topics weeks')
      /\ Forall2 (same_but "topics") weeks weeks'.
Proof.
  induction weeks as [|week rest IH]; intros w weeks' w' H.
  - inversion H; subst. exists [].
    split; [apply extends_refl | split; constructor].
  - cbn [enrich_weeks] in H. unfold bind at 1 in H.
    destruct (enrich_week E s week w) as [[week'|e] w1] eqn:Hweek;
      [|discriminate].
    unfold bind at 1 in H.
    destruct (enrich_weeks E s rest w1) as [[rest'|e] w2] eqn:Hrest;
      [|discriminate].
    inversion H; subst weeks' w'. clear H.
    apply enrich_week_enriched in Hweek.
    destruct Hweek as (e1 & Hext1 & Hrel1 & Hsame1).
    apply IH in Hrest. destruct Hrest as (e2 & Hext2 & Hrel2 & Hsame2).
    exists (e1 ++ e2). split; [exact (extends_trans Hext1 Hext2)|].
    split; [|now constructor].
    cbn [flat_map]. now apply enriched_topics_app.
Qed.

Lemma same_but_dicts (key : string) (l l' : list value) :
  Forall2 (same_but key) l l' ->
  Forall is_dict l /\ List.length l' = List.length l.
Proof.
  induction 1 as [|x y l l' (d & d' & -> & -> & _) _ [IH1 IH2]].
  - split; [constructor | reflexivity].
  - split; [constructor; [now exists d | exact IH1]|].
    cbn [List.length]. now rewrite IH2.
Qed.

(** X9: what the two loops do to a plan they run through. One search
    is made for each topic, in the order of the plan, with the topic's
    query and for one result; each topic of the new plan is the topic
    at its place in the old one with, under ['video'], what the
    results of its own search give; the weeks are the old ones but for
    ['topics'], and the plan is the old one but for ['weeks']. *)
Theorem add_videos_enriches (E : env) (s : string) (plan plan' : value)
  (w w' : world) :
  add_videos E s plan w = (Return plan', w') ->
  exists evs,
    extends w w' evs
    /\ enriched_topics s evs (all_topics plan) (all_topics plan')
    /\ Forall2 (same_but "topics") (plan_weeks plan) (plan_weeks plan')
    /\ same_but "weeks" plan plan'.
Proof.
  unfold add_videos. intros H. unfold bind at 1, lift at 1 in H.
  destruct (py_getitem plan (VStr "weeks")) as [weeks|e] eqn:Hget;
    [|discriminate].
  unfold bind at 1, lift at 1 in H.
  destruct (py_iter weeks) as [items|e] eqn:Hiter; [|discriminate].
  unfold bind at 1 in H.
  destruct (enrich_weeks E s items w) as [[items'|e] w1] eqn:Hrun;
    [|discriminate].
  inversion H; subst plan' w'. clear H.
  apply enrich_weeks_enriched in Hrun.
  destruct Hrun as (evs & Hext & Hrel & Hsame).
  pose proof Hget as Hplan. apply py_getitem_str in Hplan.
  destruct Hplan as (d & -> & Hd).
  destruct (same_but_dicts Hsame) as [Hdicts Hlen].
  assert (Hold : plan_weeks (VDict d) = items).
  { unfold plan_weeks, items_of. now rewrite Hget, Hiter. }
  assert (Hnew : plan_weeks (put_back (VDict d) "weeks" (rebuild weeks items'))
                 = items').
  { unfold plan_weeks. exact (@items_rebuilt d "weeks" weeks items items' Hiter Hdicts Hlen). }
  exists evs. unfold all_topics. rewrite Hold, Hnew.
  split; [exact Hext|]. split; [exact Hrel|]. split; [exact Hsame|].
  apply same_but_put_back.
Qed.

Lemma add_videos_enriches_witness :
  let topic := VDict [(AStr "name", VStr "Loops"); (AStr "hours", VInt 2)] in
  let plan := VDict [(AStr "weeks", VList [VDict [(AStr "topics", VList [topic])]])] in
  let run := add_videos working_env "Go" plan empty_world in
  exists plan' evs,
    run = (Return plan', snd run)
    /\ extends empty_world (snd run) evs
    /\ enriched_topics "Go" evs [topic] (all_topics plan').
Proof.
  intros topic plan run.
  destruct run as [[plan'|e] w1] eqn:Hrun; [|vm_compute in Hrun; discriminate].
  destruct (@add_videos_enriches working_env "Go" plan plan' empty_world w1 Hrun)
    as (evs & Hext & Hrel & _).
  exists plan', evs. split; [reflexivity|]. split; [exact Hext | exact Hrel].
Defined.

(** ** The loops stop at the first lookup that raises *)

Lemma begins_nil (A : Type) (l : list A) : begins [] l.
Proof. now exists l. Qed.

Lemma loop_searches_none (s : string) (topics : list value) :
  loop_searches s topics [] false.
Proof.
  repeat split; try constructor; try discriminate. apply begins_nil.
Qed.

Lemma loop_searches_done (s : string) : loop_searches s [] [] true.
Proof.
  repeat split; try constructor. apply begins_nil.
Qed.

Lemma loop_searches_stop (s : string) (ts1 ts2 : list value) (evs : list event) :
  loop_searches s ts1 evs false -> loop_searches s (ts1 ++ ts2) evs false.
Proof.
  intros (Hs & (rest & Hb) & Hlast & _). repeat split; auto; try discriminate.
  exists (rest ++ map (topic_query s) ts2).
  now rewrite map_app, Hb, app_assoc.
Qed.

Lemma loop_searches_app (s : string) (ts1 ts2 : list value)
  (e1 e2 : list event) (complete : bool) :
  loop_searches s ts1 e1 true -> loop_searches s ts2 e2 complete ->
  loop_searches s (ts1 ++ ts2) (e1 ++ e2) complete.
Proof.
  intros (Hs1 & _ & _ & Hc1) (Hs2 & (rest & Hb2) & Hlast2 & Hc2).
  destruct (Hc1 eq_refl) as [Hq1 Hok1].
  split; [apply Forall_app; now split|]. split; [|split].
  - exists rest.
    now rewrite search_queries_app, map_app, Hq1, Hb2, app_assoc.
  - destruct e2 as [|ev e2].
    + rewrite app_nil_r. clear - Hok1.
      induction Hok1 as [|x l Hx Hl IH]; [constructor|].
      destruct l; [constructor|]. cbn [removelast]. constructor; auto.
    + rewrite removelast_app by discriminate.
      apply Forall_app. now split.
  - intros Hc. destruct (Hc2 Hc) as [Hq2 Hok2]. split.
    + now rewrite search_queries_app, map_app, Hq1, Hq2.
    + apply Forall_app. now split.
Qed.

Lemma enrich_topics_stops (E : env) (s : string) (topics : list value) :
  forall w r w',
    enrich_topics E s topics w = (r, w') ->
    exists evs, extends w w' evs /\ loop_searches s topics evs (returned r).
Proof.
  induction topics as [|topic rest IH]; intros w r w' H.
  - inversion H; subst. exists [].
    split; [apply extends_refl | apply loop_searches_done].
  - cbn [enrich_topics] in H. unfold bind at 1, lift at 1 in H.
    destruct (py_getitem topic (VStr "name")) as [name|e] eqn:Hname.
    2:{ inversion H; subst. exists [].
        split; [apply extends_refl | apply loop_searches_none]. }
    unfold bind at 1 in H. rewrite find_youtube_video_run in H.
    set (query := (py_str name ++ " " ++ s)%string) in *.
    set (ev := EvSearch query 1 (youtube_search E (history w) query 1)) in *.
    assert (Hq : search_queries [ev] = map (topic_query s) [topic]).
    { cbn [map]. unfold topic_query, topic_name. now rewrite Hname. }
    assert (Hone : forall c, (c = true -> ~ lookup_raises ev) ->
                             loop_searches s [topic] [ev] c).
    { intros c Hc. split; [repeat constructor|]. split; [|split].
      - exists []. now rewrite app_nil_r, Hq.
      - constructor.
      - intros ->. split; [exact Hq|]. constructor; [now apply Hc | constructor]. }
    destruct (match youtube_search E (history w) query 1 with
              | Return rs => video_of_results rs
              | Raise e => Raise e
              end) as [video|e] eqn:Hvideo.
    2:{ inversion H; subst. exists [ev]. split; [apply extends_log|].
        apply (@loop_searches_stop s [topic] rest [ev]).
        apply Hone. discriminate. }
    assert (Hok : ~ lookup_raises ev).
    { subst ev. cbn [lookup_raises].
      destruct (youtube_search E (history w) query 1) as [rs|e];
        [|discriminate]. intros [e He]. congruence. }
    apply py_getitem_str in Hname. destruct Hname as (d & -> & Hd).
    unfold bind at 1, lift at 1 in H. cbn [py_setitem] in H.
    unfold bind at 1 in H.
    destruct (enrich_topics E s rest (log ev w)) as [[rest'|e] w2] eqn:Hrest;
      inversion H; subst r w'; clear H;
      apply IH in Hrest; destruct Hrest as (evs & Hext & Hloop);
      exists ([ev] ++ evs);
      (split; [exact (extends_trans (extends_log ev w) Hext)|]);
      apply (@loop_searches_app s [VDict d] rest [ev] evs); auto.
Qed.

Lemma enrich_week_stops (E : env) (s : string) (week : value) (w w' : world)
  (r : result value) :
  enrich_week E s week w = (r, w') ->
  exists evs,
    extends w w' evs /\ loop_searches s (week_topics week) evs (returned r).
Proof.
  unfold enrich_week. intros H. unfold bind at 1, lift at 1 in H.
  destruct (py_getitem week (VStr "topics")) as [topics|e] eqn:Hget.
  2:{ inversion H; subst. exists [].
      split; [apply extends_refl | apply loop_searches_none]. }
  unfold bind at 1, lift at 1 in H.
  destruct (py_iter topics) as [items|e] eqn:Hiter.
  2:{ inversion H; subst. exists [].
      split; [apply extends_refl | apply loop_searches_none]. }
  assert (Hitems : week_topics week = items).
  { unfold week_topics, items_of. now rewrite Hget, Hiter. }
  rewrite Hitems. unfold bind at 1 in H.
  destruct (enrich_topics E s items w) as [[items'|e] w1] eqn:Hrun;
    inversion H; subst r w'; clear H;
    apply enrich_topics_stops in Hrun; exact Hrun.
Qed.

Lemma enrich_weeks_stops (E : env) (s : string) (weeks : list value) :
  forall w r w',
    enrich_weeks E s weeks w = (r, w') ->
    exists evs,
      extends w w' evs
      /\ loop_searches s (flat_map week_topics weeks) evs (returned r).
Proof.
  induction weeks as [|week rest IH]; intros w r w' H.
  - inversion H; subst. exists [].
    split; [apply extends_refl | apply loop_searches_done].
  - cbn [enrich_weeks flat_map] in H |- *. unfold bind at 1 in H.
    destruct (enrich_week E s week w) as [[week'|e] w1] eqn:Hweek;
      apply enrich_week_stops in Hweek; destruct Hweek as (e1 & Hext1 & Hloop1).
    2:{ inversion H; subst. exists e1. split; [exact Hext1|].
        now apply loop_searches_stop. }
    unfold bind at 1 in H.
    destruct (enrich_weeks E s rest w1) as [[rest'|e] w2] eqn:Hrest;
      inversion H; subst r w'; clear H;
      apply IH in Hrest; destruct Hrest as (e2 & Hext2 & Hloop2);
      exists (e1 ++ e2); (split; [exact (extends_trans Hext1 Hext2)|]);
      now apply loop_searches_app.
Qed.

(** X10: the loops go on only as long as the lookups work. Whatever
    the outcome, all that happens is searches; their queries are those
    of the first topics of the plan, in order, one each; and no search
    but the last made the lookup raise. So no topic is searched after
    one whose lookup raised, and a search that made the lookup raise
    makes the loops raise. *)
Theorem add_videos_stops_at_failure (E : env) (s : string) (plan : value)
  (w w' : world) (r : result value) :
  add_videos E s plan w = (r, w') ->
  exists evs,
    extends w w' evs
    /\ Forall is_search evs
    /\ begins (search_queries evs) (map (topic_query s) (all_topics plan))
    /\ Forall (fun ev => ~ lookup_raises ev) (removelast evs)
    /\ (forall ev, In ev evs -> lookup_raises ev -> returned r = false).
Proof.
  unfold add_videos. intros H.
  assert (Hnone : forall topics,
             exists evs : list event,
               extends w w evs /\ Forall is_search evs
               /\ begins (search_queries evs) (map (topic_query s) topics)
               /\ Forall (fun ev => ~ lookup_raises ev) (removelast evs)
               /\ (forall ev, In ev evs -> lookup_raises ev ->
                              returned r = false)).
  { intros topics. exists []. split; [apply extends_refl|].
    split; [constructor|]. split; [apply begins_nil|].
    split; [constructor|]. intros ev []. }
  unfold bind at 1, lift at 1 in H.
  destruct (py_getitem plan (VStr "weeks")) as [weeks|e] eqn:Hget.
  2:{ inversion H; subst. apply Hnone. }
  unfold bind at 1, lift at 1 in H.
  destruct (py_iter weeks) as [items|e] eqn:Hiter.
  2:{ inversion H; subst. apply Hnone. }
  clear Hnone.
  assert (Hitems : all_topics plan = flat_map week_topics items).
  { unfold all_topics, plan_weeks, items_of. now rewrite Hget, Hiter. }
  rewrite Hitems. unfold bind at 1 in H.
  destruct (enrich_weeks E s items w) as [r1 w1] eqn:Hrun.
  apply enrich_weeks_stops in Hrun.
  destruct Hrun as (evs & Hext & Hs & Hb & Hlast & Hc).
  assert (Hr : returned r = returned r1 /\ w' = w1).
  { destruct r1; inversion H; subst; auto. }
  destruct Hr as [Hr ->]. exists evs. repeat split; auto; try apply Hext.
  intros ev Hin Hraises. rewrite Hr.
  destruct (returned r1); [|reflexivity].
  destruct (Hc eq_refl) as [_ Hok]. rewrite Forall_forall in Hok.
  now destruct (Hok ev Hin).
Qed.

Lemma add_videos_stops_at_failure_witness :
  let plan := VDict [(AStr "weeks",
                      VList [VDict [(AStr "topics",
                                     VList [VDict [(AStr "name", VStr "Loops")];
                                            VDict [(AStr "name", VStr "Functions")];
                                            VDict [(AStr "name", VStr "Sets")]])]])] in
  let run := add_videos failing_search_env "Machine Learning" plan empty_world in
  search_queries (history (snd run))
  = ["Loops Machine Learning"; "Functions Machine Learning"]%string
  /\ exists evs,
       extends empty_world (snd run) evs
       /\ begins (search_queries evs)
                 (map (topic_query "Machine Learning") (all_topics plan)).
Proof.
  intros plan run. split; [reflexivity|].
  destruct (@add_videos_stops_at_failure failing_search_env "Machine Learning"
              plan empty_world (snd run) (fst run) eq_refl)
    as (evs & Hext & _ & Hb & _).
  exists evs. split; [exact Hext | exact Hb].
Defined.

(* ================================================================== *)
(** * The stored plan and the plan of the session (lines 182-189) *)
(* ================================================================== *)



(* ================================================================== *)
(** * The video card (lines 251-259) *)
(* ================================================================== *)




(* ================================================================== *)
(** * The check boxes and the progress figure *)
(* ================================================================== *)

Lemma progress_fraction_raises (plan : value) (progress : progress_map)
  (e : exn) :
  progress_fraction plan progress = Raise e -> topic_names plan = None.
Proof.
  unfold progress_fraction, topic_names, iterable.
  unfold result_bind at 1.
  destruct (py_getitem plan (VStr "weeks")) as [weeks|e0]; [|reflexivity].
  unfold result_bind at 1.
  destruct (py_iter weeks) as [items|e0] eqn:Hiter; [|reflexivity].
  unfold result_bind at 1.
  pose proof (count_topics_cases items) as Htotal.
  destruct (count_topics items) as [total|e0].
  2:{ assert (Hs : sequence (map week_names items) = None)
        by (apply sequence_none; now apply no_topic_none).
      now rewrite Hs. }
  unfold result_bind at 1. rewrite Hiter.
  unfold result_bind at 1.
  pose proof (count_checked_cases progress items) as Hdone.
  destruct (count_checked progress items) as [completed|e0]; [discriminate|].
  assert (Hs : sequence (map week_names items) = None)
    by (apply sequence_none; exact Hdone).
  now rewrite Hs.
Qed.

Lemma key_eqb_left (n a k : atom) :
  key_eqb n a = true -> key_eqb n k = key_eqb a k.
Proof.
  intros H. apply key_eqb_norm in H. apply Bool.eq_iff_eq_true.
  rewrite !key_eqb_norm. now rewrite H.
Qed.

Lemma is_checked_key (progress : progress_map) (n a : atom) :
  key_eqb n a = true -> is_checked progress n = is_checked progress a.
Proof.
  intros H. unfold is_checked.
  induction progress as [|[k b] rest IH]; [reflexivity|].
  cbn [find fst]. rewrite (@key_eqb_left n a k H).
  destruct (key_eqb a k); [reflexivity | exact IH].
Qed.

Lemma filter_length_mono (A : Type) (f g : A -> bool) (l : list A) :
  (forall x, f x = true -> g x = true) ->
  (List.length (filter f l) <= List.length (filter g l))%nat.
Proof.
  intros Hfg. induction l as [|a l IH]; [constructor|].
  cbn [filter]. destruct (f a) eqn:Hf.
  - rewrite (Hfg a Hf). cbn [List.length]. lia.
  - destruct (g a); cbn [List.length]; lia.
Qed.

Lemma Qdiv_le_same (a a' b : Z) :
  (a <= a')%Z -> (0 < b)%Z ->
  (inject_Z a / inject_Z b <= inject_Z a' / inject_Z b)%Q.
Proof.
  intros Hle Hb.
  assert (Hb' : (0 < inject_Z b)%Q) by (rewrite <- (Zlt_Qlt 0); exact Hb).
  apply Qle_shift_div_r; [exact Hb'|].
  rewrite Qmult_comm, Qmult_div_r.
  - now rewrite <- Zle_Qle.
  - intros Hz. rewrite Hz in Hb'. now apply Qlt_irrefl in Hb'.
Qed.

(** X13: a check box moves the progress figure the right way. When
    the figure of a plan is computed for a mapping, it is computed as
    well for the mapping after [progress[name] = checked], and it is
    then not smaller when [checked] is true and not larger when it is
    false. *)
Theorem progress_fraction_follows_checkbox (plan : value)
  (progress : progress_map) (a : atom) (checked : bool) (q : Q) :
  progress_fraction plan progress = Return q ->
  exists q',
    progress_fraction plan (progress_set a checked progress) = Return q'
    /\ (if checked then q <= q' else q' <= q)%Q.
Proof.
  intros H. apply progress_fraction_counts in H.
  destruct H as (names & Hnames & ->).
  destruct (progress_fraction plan (progress_set a checked progress))
    as [q'|e] eqn:H'.
  2:{ apply progress_fraction_raises in H'. congruence. }
  exists q'. split; [reflexivity|].
  apply progress_fraction_counts in H'.
  destruct H' as (names' & Hnames' & ->).
  rewrite Hnames in Hnames'. injection Hnames' as <-.
  destruct (Z.of_nat (List.length names) >? 0) eqn:Hpos.
  2:{ destruct checked; apply Qle_refl. }
  apply Z.gtb_lt in Hpos.
  assert (Hother : forall n, key_eqb n a = false ->
            is_checked (progress_set a checked progress) n
            = is_checked progress n)
    by (intros n Hn; now apply is_checked_set_other).
  assert (Hsame : forall n, key_eqb n a = true ->
            is_checked (progress_set a checked progress) n = checked).
  { intros n Hn.
    rewrite (@is_checked_key (progress_set a checked progress) n a Hn).
    apply is_checked_set_same. }
  destruct checked; apply Qdiv_le_same; try exact Hpos;
    apply Nat2Z.inj_le, filter_length_mono; intros n Hn;
    destruct (key_eqb n a) eqn:Hk.
  - now apply Hsame.
  - now rewrite Hother.
  - rewrite (Hsame n Hk) in Hn. discriminate.
  - now rewrite <- Hother.
Qed.

Lemma progress_fraction_follows_checkbox_witness :
  let plan := VDict [(AStr "weeks",
                      VList [VDict [(AStr "topics",
                                     VList [VDict [(AStr "name", VStr "Loops")];
                                            VDict [(AStr "name", VStr "Sets")]])]])] in
  exists q',
    progress_fraction plan (progress_set (AStr "Sets") true [(AStr "Loops", true)])
    = Return q'
    /\ (1 # 2 <= q')%Q.
Proof.
  intros plan.
  exact (@progress_fraction_follows_checkbox plan [(AStr "Loops", true)]
           (AStr "Sets") true (1 # 2)%Q eq_refl).
Defined.
